(** * The data-pipeline compiler of vega-lite: src/compile/data.ts

    A shallow embedding of [compileData] and of the namespaces [source],
    [layout], [summary], [stack] and [dates], followed by the properties of
    the dataset list they assemble.

    JavaScript values are embedded as follows.  Strings are [string];
    numbers, which the compiler only copies, tests for truthiness and prints
    into expressions, are binary64 floats; an optional property is an
    [option]; an object used as a dictionary is a [JsObj.t]; an array is a
    [list].  A property read on a missing object (a [TypeError]) is the
    [None] of the [result] monad. *)

From Stdlib Require Import List String Ascii ZArith NArith Bool Lia.
From Stdlib Require Import Permutation Sorted DecimalString.
From Stdlib Require Floats Uint63.
Import ListNotations.
Import (notations) PrimFloat.
Local Open Scope string_scope.

(** ** JavaScript preliminaries *)

(** A Number is a binary64 float. *)
Definition number := PrimFloat.float.

(** [ToBoolean] on the values the compiler tests: the empty string, the
    zeros and NaN are falsy. *)
Definition truthyStr (s : option string) : bool :=
  match s with
  | Some s => negb (s =? "")
  | None => false
  end.

Definition truthyNum (n : option number) : bool :=
  match n with
  | Some n => negb (PrimFloat.is_zero n || PrimFloat.is_nan n)
  | None => false
  end.

(** The [length] of an array, as a Number (a length is below 2^32). *)
Definition lengthNumber (n : nat) : number :=
  PrimFloat.of_uint63 (Uint63.of_Z (Z.of_nat n)).

(** [Number::toString]: the shortest decimal digits [s] and the exponent [n]
    such that [s * 10^(n - k)] rounds to the number, the closest such value
    when there are several, printed in positional notation when
    [-6 < n <= 21] and in exponent notation otherwise. *)
Module NumberToString.
Local Open Scope Z_scope.

Definition decimal (z : Z) : string := NilZero.string_of_int (Z.to_int z).

Fixpoint zeros (n : nat) : string :=
  match n with
  | O => ""
  | S n => String "0" (zeros n)
  end.

(** A positive finite number [m * 2^e] as the fraction [num / den], with the
    bounds [low / den] and [high / den] of the decimals that round to it;
    the bounds themselves round to it when the mantissa is even. *)
Record Interval : Type := {
  num : Z; den : Z; low : Z; high : Z; closed : bool
}.

Definition interval (m : positive) (e : Z) : Interval :=
  let up := 2 ^ Z.max 0 e in
  let ulp := 4 * up in
  let x := 4 * Z.pos m * up in
  let boundary := (Z.pos m =? 2 ^ 52) && (-1074 <? e) in
  {| num := x;
     den := 4 * 2 ^ Z.max 0 (- e);
     low := x - (if boundary then ulp / 4 else ulp / 2);
     high := x + ulp / 2;
     closed := Z.even (Z.pos m) |}.

(** [v * 10^q * den] as a fraction. *)
Definition scaled (v q den : Z) : Z * Z :=
  if 0 <=? q then (v * 10 ^ q * den, 1) else (v * den, 10 ^ (- q)).

Definition inside (i : Interval) (s q : Z) : bool :=
  let (a, b) := scaled s q (den i) in
  if closed i then (low i * b <=? a) && (a <=? high i * b)
  else (low i * b <? a) && (a <? high i * b).

Definition distance (i : Interval) (s q : Z) : Z * Z :=
  let (a, b) := scaled s q (den i) in (Z.abs (a - num i * b), b).

(** [c1] is closer to the number than [c2], or as close with even digits. *)
Definition closer (i : Interval) (c1 c2 : Z * Z) : bool :=
  let (d1, b1) := distance i (fst c1) (snd c1) in
  let (d2, b2) := distance i (fst c2) (snd c2) in
  (d1 * b2 <? d2 * b1) || ((d1 * b2 =? d2 * b1) && Z.even (fst c1)).

Definition below (i : Interval) (n : Z) : bool :=
  if 0 <=? n then num i <? den i * 10 ^ n else num i * 10 ^ (- n) <? den i.

(** The least [n] with [num / den < 10^n], searched around an estimate from
    the binary logarithms. *)
Definition magnitude (i : Interval) : Z :=
  let estimate := (Z.log2 (num i) - Z.log2 (den i)) * 30103 / 100000 in
  match List.find (below i) (map (fun k => estimate - 1 + Z.of_nat k) (seq 0 6)) with
  | Some n => n
  | None => estimate
  end.

(** The values [s * 10^q] with [k] digits that round to the number. *)
Definition candidates (i : Interval) (nx k : Z) : list (Z * Z) :=
  flat_map
    (fun n =>
       let q := n - k in
       let floor :=
         if 0 <=? q then num i / (den i * 10 ^ q)
         else num i * 10 ^ (- q) / den i in
       List.filter
         (fun c => (10 ^ (k - 1) <=? fst c) && (fst c <? 10 ^ k)
                   && inside i (fst c) (snd c))
         [(floor, q); (floor + 1, q)])
    [nx; nx + 1].

Fixpoint best (i : Interval) (cs : list (Z * Z)) (acc : Z * Z) : Z * Z :=
  match cs with
  | [] => acc
  | c :: cs => best i cs (if closer i c acc then c else acc)
  end.

Fixpoint shortest (i : Interval) (nx : Z) (ks : list Z) : option (Z * Z * Z) :=
  match ks with
  | [] => None
  | k :: ks =>
      match candidates i nx k with
      | [] => shortest i nx ks
      | c :: cs => let (s, q) := best i cs c in Some (s, q + k, k)
      end
  end.

(** The [k] digits [s] with the decimal exponent [n]. *)
Definition format (s n k : Z) : string :=
  let digits := decimal s in
  if (k <=? n) && (n <=? 21) then digits ++ zeros (Z.to_nat (n - k))
  else if (0 <? n) && (n <=? 21) then
    String.substring 0 (Z.to_nat n) digits ++ "." ++
    String.substring (Z.to_nat n) (Z.to_nat (k - n)) digits
  else if (-6 <? n) && (n <=? 0) then
    "0." ++ zeros (Z.to_nat (- n)) ++ digits
  else
    let exponent :=
      (if 0 <=? n - 1 then "+" else "-") ++ decimal (Z.abs (n - 1)) in
    if k =? 1 then digits ++ "e" ++ exponent
    else String.substring 0 1 digits ++ "." ++
         String.substring 1 (Z.to_nat (k - 1)) digits ++ "e" ++ exponent.

Definition positive (m : positive) (e : Z) : string :=
  let i := interval m e in
  match shortest i (magnitude i) (map Z.of_nat (seq 1 17)) with
  | Some (s, n, k) => format s n k
  | None => decimal (num i / den i)
  end.

End NumberToString.

(** [ToString], as applied by [+] between a string and a number or a
    missing property. *)
Definition numToString (n : number) : string :=
  match FloatOps.Prim2SF n with
  | SpecFloat.S754_nan => "NaN"
  | SpecFloat.S754_zero _ => "0"
  | SpecFloat.S754_infinity false => "Infinity"
  | SpecFloat.S754_infinity true => "-Infinity"
  | SpecFloat.S754_finite false m e => NumberToString.positive m e
  | SpecFloat.S754_finite true m e => "-" ++ NumberToString.positive m e
  end.

Definition optNumToString (n : option number) : string :=
  match n with
  | Some n => numToString n
  | None => "undefined"
  end.

(** A property key: a missing name is coerced to ["undefined"]. *)
Definition propertyKey (s : option string) : string :=
  match s with
  | Some s => s
  | None => "undefined"
  end.

(** Opaque JSON payloads (inline data, explicit scale domains). *)
#[local] Unset Elimination Schemes.
Inductive Json : Type :=
| JNull
| JBool (b : bool)
| JNum (n : number)
| JStr (s : string)
| JArr (xs : list Json)
| JObj (props : list (string * Json)).
#[local] Set Elimination Schemes.

(** The [result] monad: [None] stands for a thrown [TypeError]. *)
Definition result (A : Type) := option A.

Definition ret {A} (a : A) : result A := Some a.

Definition bind {A B} (r : result A) (k : A -> result B) : result B :=
  match r with
  | Some a => k a
  | None => None
  end.

Notation "x <- r ;; k" := (bind r (fun x => k))
  (at level 61, r at next level, right associativity).

(** ** Objects used as dictionaries

    An object literal [{}] that is filled by assignments [o[k] = v] and read
    back with [o[k]], [keys], [vals] or [for..in].  The list holds the own
    properties in creation order; assigning to an existing key keeps its
    place.  The prototype is [Object.prototype]: reading one of its member
    names on an object that has no own property of that name yields the
    inherited member, and assigning to [__proto__] creates no own property.
    Enumeration follows the engine's property order: keys that are array
    indices come first, in ascending numeric order, and the other keys
    follow in creation order; the members of [Object.prototype] are not
    enumerable. *)
Module JsObj.

Definition t (V : Type) := list (string * V).

Definition empty {V : Type} : t V := [].

(** The member names of [Object.prototype]. *)
Definition inheritedNames : list string :=
  ["constructor"; "toString"; "toLocaleString"; "valueOf"; "hasOwnProperty";
   "isPrototypeOf"; "propertyIsEnumerable"; "__proto__";
   "__defineGetter__"; "__defineSetter__"; "__lookupGetter__";
   "__lookupSetter__"].

Definition inherited (k : string) : bool :=
  existsb (String.eqb k) inheritedNames.

(** The own property [k]. *)
Fixpoint own {V : Type} (k : string) (o : t V) : option V :=
  match o with
  | [] => None
  | (k', v) :: o' => if k =? k' then Some v else own k o'
  end.

(** What [o[k]] reads: an own value, an inherited member of
    [Object.prototype] (an object, so truthy), or [undefined]. *)
Inductive Lookup (V : Type) : Type :=
| Own (v : V)
| Inherited
| Undefined.

Arguments Own {V} v.
Arguments Inherited {V}.
Arguments Undefined {V}.

Definition get {V : Type} (k : string) (o : t V) : Lookup V :=
  match own k o with
  | Some v => Own v
  | None => if inherited k then Inherited else Undefined
  end.

(** [ToBoolean (o[k])] for an object that holds booleans. *)
Definition truthy (l : Lookup bool) : bool :=
  match l with
  | Own b => b
  | Inherited => true
  | Undefined => false
  end.

(** Creating or overwriting the own property [k]. *)
Fixpoint define {V : Type} (k : string) (v : V) (o : t V) : t V :=
  match o with
  | [] => [(k, v)]
  | (k', v') :: o' =>
      if k =? k' then (k, v) :: o' else (k', v') :: define k v o'
  end.

(** [o[k] = v].  The key [__proto__] is the accessor of [Object.prototype]:
    its setter leaves the own properties as they are. *)
Definition set {V : Type} (k : string) (v : V) (o : t V) : t V :=
  if k =? "__proto__" then o else define k v o.

Definition digit (c : ascii) : option N :=
  let n := N_of_ascii c in
  if ((48 <=? n) && (n <=? 57))%N then Some (n - 48)%N else None.

Fixpoint digits (s : string) (acc : N) : option N :=
  match s with
  | EmptyString => Some acc
  | String c s' =>
      match digit c with
      | Some d => digits s' (10 * acc + d)%N
      | None => None
      end
  end.

(** A key is an array index when it is the canonical decimal form of an
    integer below 2^32 - 1. *)
Definition arrayIndex (k : string) : option N :=
  match k with
  | EmptyString => None
  | String c rest =>
      if (c =? "0")%char then
        match rest with
        | EmptyString => Some 0%N
        | _ => None
        end
      else
        match digits k 0 with
        | Some n => if (n <=? 4294967294)%N then Some n else None
        | None => None
        end
  end.

Definition isIndexKey {V : Type} (e : string * V) : bool :=
  match arrayIndex (fst e) with
  | Some _ => true
  | None => false
  end.

Definition indexOf {V : Type} (e : string * V) : N :=
  match arrayIndex (fst e) with
  | Some n => n
  | None => 0%N
  end.

Fixpoint insertByIndex {V : Type} (e : string * V) (l : list (string * V))
  : list (string * V) :=
  match l with
  | [] => [e]
  | e' :: l' =>
      if (indexOf e <=? indexOf e')%N then e :: l
      else e' :: insertByIndex e l'
  end.

Definition sortByIndex {V : Type} (l : list (string * V)) : list (string * V) :=
  fold_right insertByIndex [] l.

(** The own properties in enumeration order. *)
Definition entries {V : Type} (o : t V) : list (string * V) :=
  sortByIndex (filter isIndexKey o) ++ filter (fun e => negb (isIndexKey e)) o.

(** [util.keys] and [util.vals]. *)
Definition keys {V : Type} (o : t V) : list string := map fst (entries o).

Definition vals {V : Type} (o : t V) : list V := map snd (entries o).

(** [util.reduce] over an object: [f(acc, value, key)] for each property. *)
Definition reduce {V A : Type} (o : t V) (f : A -> V -> string -> A) (init : A) : A :=
  fold_left (fun acc e => f acc (snd e) (fst e)) (entries o) init.

End JsObj.

(** ** The data model *)

(** src/channel: the encoding channels.  The compiler names five of them;
    the others are told apart by name only. *)
Inductive Channel : Type :=
| X | Y | ROW | COLUMN | COLOR
| OtherChannel (name : string).

Definition Channel_eqb (a b : Channel) : bool :=
  match a, b with
  | X, X | Y, Y | ROW, ROW | COLUMN, COLUMN | COLOR, COLOR => true
  | OtherChannel n, OtherChannel n' => n =? n'
  | _, _ => false
  end.

(** src/mark: only the text mark is told apart. *)
Inductive Mark : Type :=
| TEXT_MARK
| OtherMark (name : string).

Definition Mark_eqb (a b : Mark) : bool :=
  match a, b with
  | TEXT_MARK, TEXT_MARK => true
  | OtherMark n, OtherMark n' => n =? n'
  | _, _ => false
  end.

(** src/type: the semantic types, the keys of [DEFAULT_NULL_FILTERS]. *)
Inductive VlType : Type := NOMINAL | ORDINAL | QUANTITATIVE | TEMPORAL.

Definition VlType_eqb (a b : VlType) : bool :=
  match a, b with
  | NOMINAL, NOMINAL | ORDINAL, ORDINAL
  | QUANTITATIVE, QUANTITATIVE | TEMPORAL, TEMPORAL => true
  | _, _ => false
  end.

Definition optTypeIs (t : option VlType) (ty : VlType) : bool :=
  match t with
  | Some t => VlType_eqb t ty
  | None => false
  end.

(** The bin specification of a field definition: a boolean, or an object of
    bin parameters. *)
Record BinProperties : Type := {
  bin_maxbins : option number;
  bin_step : option number
}.

Inductive BinSpec : Type :=
| BinBool (b : bool)
| BinObject (params : BinProperties).

Definition truthyBin (b : option BinSpec) : bool :=
  match b with
  | Some (BinBool b) => b
  | Some (BinObject _) => true
  | None => false
  end.

(** schema/fielddef.schema: [FieldDef], every property optional. *)
Record FieldDef : Type := {
  fd_field : option string;
  fd_type : option VlType;
  fd_aggregate : option string;
  fd_bin : option BinSpec;
  fd_timeUnit : option string
}.

Definition emptyFieldDef : FieldDef :=
  {| fd_field := None; fd_type := None; fd_aggregate := None;
     fd_bin := None; fd_timeUnit := None |}.

(** The options of a field reference that this file passes to [field]. *)
Record FieldRefOption : Type := {
  nofn : bool;
  datum : bool;
  prefn : option string;
  binSuffix : option string
}.

Definition noOpt : FieldRefOption :=
  {| nofn := false; datum := false; prefn := None; binSuffix := None |}.

Definition optBinSuffix (sfx : string) : FieldRefOption :=
  {| nofn := false; datum := false; prefn := None; binSuffix := Some sfx |}.

Definition optDatumBinSuffix (sfx : string) : FieldRefOption :=
  {| nofn := false; datum := true; prefn := None; binSuffix := Some sfx |}.

Definition optNofnDatum : FieldRefOption :=
  {| nofn := true; datum := true; prefn := None; binSuffix := None |}.

Definition optDatum : FieldRefOption :=
  {| nofn := false; datum := true; prefn := None; binSuffix := None |}.

Definition optPrefn (p : string) : FieldRefOption :=
  {| nofn := false; datum := false; prefn := Some p; binSuffix := None |}.

Definition optDatumPrefn (p : string) : FieldRefOption :=
  {| nofn := false; datum := true; prefn := Some p; binSuffix := None |}.

(** A scale configuration; [domain] is an explicit array or anything else. *)
Inductive Domain : Type :=
| DomainArray (xs : list Json)
| DomainOther (j : Json).

Record Scale : Type := {
  sc_type : option string;
  sc_domain : option Domain;
  sc_padding : option number;
  sc_bandWidth : option number
}.

(** The transform configuration of the specification. *)
Record CalcFormula : Type := {
  calc_field : string;
  calc_expr : string
}.

Record TransformConfig : Type := {
  tr_filterNull : option bool;
  tr_filter : option string;
  tr_calculate : option (list CalcFormula)
}.

Record Data : Type := {
  data_values : option Json;
  data_url : option string;
  data_formatType : option string
}.

Record UnitConfig : Type := {
  unit_width : number;
  unit_height : number
}.

(** compile/stack: [StackProperties], the two channels this file reads. *)
Record StackProperties : Type := {
  groupbyChannel : Channel;
  fieldChannel : Channel
}.

(** Modelled from the spec: the [Model] collaborator (compile/Model and the
    encoding helpers it delegates to are not among the sources).  A
    read-only view of the validated specification: per-channel field
    definitions, per-channel scale configuration, mark type, global
    transform configuration, data, unit configuration, the stacking
    properties when applicable and the name of the upstream data table. *)
Record Model : Type := {
  encoding : Channel -> option FieldDef;
  scale : Channel -> option Scale;
  mark : Mark;
  transform : TransformConfig;
  data : Data;
  hasValues : bool;
  config_unit : UnitConfig;
  dataTable : string;
  stack : option StackProperties
}.

(** Modelled from the spec: [Model.has], the channel-presence predicate: a
    channel is present when its field definition names a field. *)
Definition has (m : Model) (c : Channel) : bool :=
  match encoding m c with
  | Some fd => truthyStr (fd_field fd)
  | None => false
  end.

(** Modelled from the spec: [Model.fieldDef], the field definition of a
    channel (an empty one when the channel has none). *)
Definition fieldDef (m : Model) (c : Channel) : FieldDef :=
  match encoding m c with
  | Some fd => fd
  | None => emptyFieldDef
  end.

(** ** Vega output: transforms and datasets *)

(** The [expr] of a formula transform: a string, or a bare number where the
    layout uses a fixed size. *)
Inductive Expr : Type :=
| EStr (s : string)
| ENum (n : number).

Definition exprToString (e : Expr) : string :=
  match e with
  | EStr s => s
  | ENum n => numToString n
  end.

Record BinOutput : Type := {
  out_start : string;
  out_mid : string;
  out_end : string
}.

(** One entry [{field, ops}] of a long-format [summarize]. *)
Record SummarizeField : Type := {
  sum_field : string;
  sum_ops : list string
}.

Inductive Summarize : Type :=
| SummarizeList (l : list SummarizeField)
| SummarizeMap (o : JsObj.t (list string)).

Inductive Transform : Type :=
| Filter (test : string)
| Formula (fld : string) (expr : Expr)
| Bin (fld : option string) (output : BinOutput) (maxbins step : option number)
| Aggregate (groupby : option (list string)) (summarize : Summarize)
| Sort (by_ : string)
| Rank (fld : string) (rank : string).

Record Format : Type := {
  format_type : option string;
  format_parse : option (JsObj.t string)
}.

(** [interface VgData].  Every dataset built in this file sets [transform],
    so it is not optional here. *)
Record VgData : Type := {
  vg_name : string;
  vg_source : option string;
  vg_values : option Json;
  vg_format : option Format;
  vg_url : option string;
  vg_transform : list Transform
}.

Definition setTransform (d : VgData) (ts : list Transform) : VgData :=
  {| vg_name := vg_name d; vg_source := vg_source d; vg_values := vg_values d;
     vg_format := vg_format d; vg_url := vg_url d; vg_transform := ts |}.

(** ** The collaborators of the compiler

    What data.ts imports from modules that are not among the sources: the
    canonical channel order, the reserved dataset names, the field-reference
    builder, the bin and scale policies, the time-unit helpers, and the two
    methods of [Model] that are built on them. *)
Class Env : Type := {
  CHANNELS : list Channel;
  SOURCE : string;
  SUMMARY : string;
  LAYOUT : string;
  STACKED_SCALE : string;
  field : FieldDef -> FieldRefOption -> string;
  isCount : FieldDef -> bool;
  autoMaxBins : Channel -> number;
  scaleType : option Scale -> FieldDef -> Channel -> Mark -> option string;
  parseExpression : string -> string -> bool -> string;
  rawDomain : string -> Channel -> option (list number);
  modelField : Model -> Channel -> FieldRefOption -> string;
  isOrdinalScale : Model -> Channel -> bool;
  (** Modelled from the spec: [rawDomain] has a domain for the bounded
      calendar units only (month, day, hours and the like), and none of them
      bears the name of a member of [Object.prototype]. *)
  rawDomain_timeUnit :
    forall timeUnit channel,
      JsObj.inherited timeUnit = true -> rawDomain timeUnit channel = None
}.

(** [a.push(x)] on an array that is threaded through a scan. *)
Definition push {A : Type} (a : list A) (x : A) : list A := (a ++ [x])%list.

Definition optStringIs (o : option string) (s : string) : bool :=
  match o with
  | Some s' => s' =? s
  | None => false
  end.

Section ModelScan.
Context `{Env}.

(** Modelled from the spec: [Model.reduce] and [Model.forEach] scan the
    present channels in the canonical channel order, passing the field
    definition and the channel.  [forEach] threads the variables its
    callback assigns. *)
Definition reduce {A : Type} (m : Model) (f : A -> FieldDef -> Channel -> A)
  (init : A) : A :=
  fold_left
    (fun r channel => if has m channel then f r (fieldDef m channel) channel else r)
    CHANNELS init.

Definition forEach {S : Type} (m : Model) (f : FieldDef -> Channel -> S -> S)
  (s : S) : S :=
  fold_left
    (fun s channel => if has m channel then f (fieldDef m channel) channel s else s)
    CHANNELS s.

(** The pairs visited by a scan, in order. *)
Definition scan (m : Model) : list (FieldDef * Channel) :=
  flat_map
    (fun channel => if has m channel then [(fieldDef m channel, channel)] else [])
    CHANNELS.

End ModelScan.

Definition DEFAULT_NULL_FILTERS (t : option VlType) : bool :=
  match t with
  | Some NOMINAL => false
  | Some ORDINAL => false
  | Some QUANTITATIVE => true
  | Some TEMPORAL => true
  | None => false
  end.

(** ** namespace source *)
Module source.
Section WithEnv.
Context `{Env}.

Definition formatParse (m : Model) : option (JsObj.t string) :=
  let calcFieldMap :=
    fold_left
      (fun fieldMap formula => JsObj.set (calc_field formula) true fieldMap)
      (match tr_calculate (transform m) with Some l => l | None => [] end)
      JsObj.empty in
  forEach m
    (fun fd _ parse =>
       if optTypeIs (fd_type fd) TEMPORAL then
         let parse := match parse with Some p => p | None => JsObj.empty end in
         Some (JsObj.set (propertyKey (fd_field fd)) "date" parse)
       else if optTypeIs (fd_type fd) QUANTITATIVE then
         if isCount fd
            || JsObj.truthy (JsObj.get (propertyKey (fd_field fd)) calcFieldMap)
         then parse
         else
           let parse := match parse with Some p => p | None => JsObj.empty end in
           Some (JsObj.set (propertyKey (fd_field fd)) "number" parse)
       else parse)
    None.

Definition timeTransform (m : Model) : list Transform :=
  reduce m
    (fun transform fd _ =>
       let ref := field fd optNofnDatum in
       if optTypeIs (fd_type fd) TEMPORAL && truthyStr (fd_timeUnit fd) then
         push transform
           (Formula (field fd noOpt)
              (EStr (parseExpression (propertyKey (fd_timeUnit fd)) ref false)))
       else transform)
    [].

(** [extend({type: 'bin', field, output}, bin)] followed by the default for
    [maxbins]. *)
Definition binTrans (fd : FieldDef) (channel : Channel) (bin : option BinSpec)
  : Transform :=
  let params :=
    match bin with
    | Some (BinObject p) => p
    | _ => {| bin_maxbins := None; bin_step := None |}
    end in
  let output :=
    {| out_start := field fd (optBinSuffix "_start");
       out_mid := field fd (optBinSuffix "_mid");
       out_end := field fd (optBinSuffix "_end") |} in
  if negb (truthyNum (bin_maxbins params)) && negb (truthyNum (bin_step params))
  then Bin (fd_field fd) output (Some (autoMaxBins channel)) (bin_step params)
  else Bin (fd_field fd) output (bin_maxbins params) (bin_step params).

Definition binTransform (m : Model) : list Transform :=
  reduce m
    (fun transform fd channel =>
       let bin := fd_bin (fieldDef m channel) in
       let scale := scale m channel in
       if truthyBin bin then
         let transform := push transform (binTrans fd channel bin) in
         if optStringIs (scaleType scale fd channel (mark m)) "ordinal"
            || Channel_eqb channel COLOR
         then
           push transform
             (Formula (field fd (optBinSuffix "_range"))
                (EStr (field fd (optDatumBinSuffix "_start") ++
                       " + '-' + " ++
                       field fd (optDatumBinSuffix "_end"))))
         else transform
       else transform)
    [].

Definition nullFilterTransform (m : Model) : list Transform :=
  let filterNull := tr_filterNull (transform m) in
  let filteredFields :=
    JsObj.keys
      (reduce m
         (fun aggregator fd _ =>
            if match filterNull with Some b => b | None => false end
               || (match filterNull with None => true | Some _ => false end
                   && truthyStr (fd_field fd)
                   && negb (optStringIs (fd_field fd) "*")
                   && DEFAULT_NULL_FILTERS (fd_type fd))
            then JsObj.set (propertyKey (fd_field fd)) true aggregator
            else aggregator)
         JsObj.empty) in
  if (0 <? List.length filteredFields)%nat then
    [Filter
       (String.concat " && "
          (map (fun fieldName => "datum." ++ fieldName ++ "!==null")
             filteredFields))]
  else [].

Definition filterTransform (m : Model) : list Transform :=
  let filter := tr_filter (transform m) in
  if truthyStr filter then [Filter (propertyKey filter)] else [].

Definition formulaTransform (m : Model) : list Transform :=
  fold_left
    (fun transform formula =>
       push transform (Formula (calc_field formula) (EStr (calc_expr formula))))
    (match tr_calculate (transform m) with Some l => l | None => [] end)
    [].

Definition transform (m : Model) : list Transform :=
  (nullFilterTransform m ++
   formulaTransform m ++
   filterTransform m ++
   binTransform m ++
   timeTransform m)%list.

Definition def (m : Model) : VgData :=
  let source :=
    if hasValues m then
      {| vg_name := SOURCE; vg_source := None;
         vg_values := data_values (data m);
         vg_format := Some {| format_type := Some "json"; format_parse := None |};
         vg_url := None; vg_transform := [] |}
    else
      {| vg_name := SOURCE; vg_source := None;
         vg_values := None;
         vg_format :=
           Some {| format_type := data_formatType (data m); format_parse := None |};
         vg_url := data_url (data m); vg_transform := [] |} in
  let parse := formatParse m in
  let source :=
    match parse with
    | Some p =>
        {| vg_name := vg_name source; vg_source := vg_source source;
           vg_values := vg_values source;
           vg_format :=
             match vg_format source with
             | Some f => Some {| format_type := format_type f; format_parse := Some p |}
             | None => None
             end;
           vg_url := vg_url source; vg_transform := vg_transform source |}
    | None => source
    end in
  setTransform source (transform m).

End WithEnv.
End source.

(** ** namespace layout *)
Module layout.
Section WithEnv.
Context `{Env}.

Definition domainIsArray (s : Scale) : bool :=
  match sc_domain s with
  | Some (DomainArray _) => true
  | _ => false
  end.

Definition domainLength (s : Scale) : number :=
  match sc_domain s with
  | Some (DomainArray xs) => lengthNumber (List.length xs)
  | _ => lengthNumber 0
  end.

(** The number or string that [cardinalityFormula] returns. *)
Definition cardinalityFormula (m : Model) (channel : Channel) : result Expr :=
  scale <- scale m channel ;;
  if domainIsArray scale then ret (ENum (domainLength scale))
  else
    let timeUnit := fd_timeUnit (fieldDef m channel) in
    let timeUnitDomain :=
      if truthyStr timeUnit then rawDomain (propertyKey timeUnit) channel
      else None in
    match timeUnitDomain with
    | Some d => ret (ENum (lengthNumber (List.length d)))
    | None => ret (EStr (modelField m channel (optDatumPrefn "distinct_")))
    end.

Definition scaleWidthFormula (m : Model) (channel : Channel)
  (nonOrdinalSize : number) : result Expr :=
  if has m channel then
    if isOrdinalScale m channel then
      scale <- scale m channel ;;
      cardinality <- cardinalityFormula m channel ;;
      ret (EStr ("(" ++ exprToString cardinality ++
                 " + " ++ optNumToString (sc_padding scale) ++
                 ") * " ++ optNumToString (sc_bandWidth scale)))
    else ret (ENum nonOrdinalSize)
  else
    if Mark_eqb (mark m) TEXT_MARK && Channel_eqb channel X then ret (ENum 90%float)
    else ret (ENum 21%float).

Definition facetScaleWidthFormula (m : Model) (channel : Channel)
  (innerWidth : string) : result string :=
  scale <- scale m channel ;;
  if has m channel then
    let cardinality :=
      if domainIsArray scale then numToString (domainLength scale)
      else modelField m channel (optDatumPrefn "distinct_") in
    ret ("(" ++ innerWidth ++ " + " ++ optNumToString (sc_padding scale) ++ ")" ++
         " * " ++ cardinality)
  else ret (innerWidth ++ " + " ++ optNumToString (sc_padding scale)).

Definition distinctSummary (m : Model) : result (list SummarizeField) :=
  fold_left
    (fun acc channel =>
       summary <- acc ;;
       if has m channel && isOrdinalScale m channel then
         scale <- scale m channel ;;
         if negb (domainIsArray scale) then
           ret (push summary
                  {| sum_field := modelField m channel noOpt;
                     sum_ops := ["distinct"] |})
         else ret summary
       else ret summary)
    [X; Y; ROW; COLUMN] (ret []).

Definition def (m : Model) : result VgData :=
  distinctSummary <- distinctSummary m ;;
  cellWidthFormula <- scaleWidthFormula m X (unit_width (config_unit m)) ;;
  cellHeightFormula <- scaleWidthFormula m Y (unit_height (config_unit m)) ;;
  let isFacet := has m COLUMN || has m ROW in
  widthExpr <-
    (if isFacet then
       (s <- facetScaleWidthFormula m COLUMN "datum.cellWidth" ;; ret (EStr s))
     else ret cellWidthFormula) ;;
  heightExpr <-
    (if isFacet then
       (s <- facetScaleWidthFormula m ROW "datum.cellHeight" ;; ret (EStr s))
     else ret cellWidthFormula) ;;
  let formulas :=
    [Formula "cellWidth" cellWidthFormula;
     Formula "cellHeight" cellHeightFormula;
     Formula "width" widthExpr;
     Formula "height" heightExpr] in
  if (0 <? List.length distinctSummary)%nat then
    ret {| vg_name := LAYOUT; vg_source := Some (dataTable m);
           vg_values := None; vg_format := None; vg_url := None;
           vg_transform :=
             ([] ++ [Aggregate None (SummarizeList distinctSummary)] ++ formulas)%list |}
  else
    ret {| vg_name := LAYOUT; vg_source := None;
           vg_values := Some (JArr [JObj []]); vg_format := None; vg_url := None;
           vg_transform := formulas |}.

End WithEnv.
End layout.

(** ** namespace summary *)
Module summary.
Section WithEnv.
Context `{Env}.

(** The variables [dims], [meas] and [hasAggregate] that the scan assigns. *)
Record State : Type := {
  dims : JsObj.t string;
  meas : JsObj.t (JsObj.t bool);
  hasAggregate : bool
}.

(** [o[k] || {}].  An inherited member is a built-in function, which has
    no enumerable property of its own until this scan stores one on it, or,
    for [__proto__], the prototype itself, to which [o[k] = ...] gives no
    own property. *)
Definition getOrEmpty {V : Type} (k : string) (o : JsObj.t (JsObj.t V)) : JsObj.t V :=
  match JsObj.get k o with
  | JsObj.Own inner => inner
  | JsObj.Inherited => JsObj.empty
  | JsObj.Undefined => JsObj.empty
  end.

Definition visit (m : Model) (fd : FieldDef) (channel : Channel) (s : State)
  : State :=
  if truthyStr (fd_aggregate fd) then
    if optStringIs (fd_aggregate fd) "count" then
      {| dims := dims s;
         meas := JsObj.set "*" (JsObj.set "count" true (getOrEmpty "*" (meas s)))
                   (meas s);
         hasAggregate := true |}
    else
      let k := propertyKey (fd_field fd) in
      {| dims := dims s;
         meas := JsObj.set k
                   (JsObj.set (propertyKey (fd_aggregate fd)) true
                      (getOrEmpty k (meas s)))
                   (meas s);
         hasAggregate := true |}
  else
    if truthyBin (fd_bin fd) then
      let d := JsObj.set (field fd (optBinSuffix "_start"))
                 (field fd (optBinSuffix "_start")) (dims s) in
      let d := JsObj.set (field fd (optBinSuffix "_mid"))
                 (field fd (optBinSuffix "_mid")) d in
      let d := JsObj.set (field fd (optBinSuffix "_end"))
                 (field fd (optBinSuffix "_end")) d in
      let scale := scale m channel in
      let d :=
        if optStringIs (scaleType scale fd channel (mark m)) "ordinal" then
          JsObj.set (field fd (optBinSuffix "_range"))
            (field fd (optBinSuffix "_range")) d
        else d in
      {| dims := d; meas := meas s; hasAggregate := hasAggregate s |}
    else
      {| dims := JsObj.set (field fd noOpt) (field fd noOpt) (dims s);
         meas := meas s; hasAggregate := hasAggregate s |}.

Definition def (m : Model) : option VgData :=
  let s :=
    forEach m (visit m)
      {| dims := JsObj.empty; meas := JsObj.empty; hasAggregate := false |} in
  let groupby := JsObj.vals (dims s) in
  let summarize :=
    JsObj.reduce (meas s)
      (fun aggregator fnDictSet field =>
         JsObj.set field (JsObj.keys fnDictSet) aggregator)
      JsObj.empty in
  if hasAggregate s then
    Some {| vg_name := SUMMARY; vg_source := Some SOURCE;
            vg_values := None; vg_format := None; vg_url := None;
            vg_transform := [Aggregate (Some groupby) (SummarizeMap summarize)] |}
  else None.

End WithEnv.
End summary.

(** ** namespace stack *)
Module stack.
Section WithEnv.
Context `{Env}.

Definition def (m : Model) (stackProps : StackProperties) : VgData :=
  let groupbyChannel := groupbyChannel stackProps in
  let fieldChannel := fieldChannel stackProps in
  let facetFields :=
    ((if has m COLUMN then [modelField m COLUMN noOpt] else []) ++
     (if has m ROW then [modelField m ROW noOpt] else []))%list in
  {| vg_name := STACKED_SCALE; vg_source := Some (dataTable m);
     vg_values := None; vg_format := None; vg_url := None;
     vg_transform :=
       [Aggregate
          (Some ([modelField m groupbyChannel noOpt] ++ facetFields)%list)
          (SummarizeList
             [{| sum_field := modelField m fieldChannel noOpt;
                 sum_ops := ["sum"] |}])] |}.

End WithEnv.
End stack.

(** ** namespace dates *)
Module dates.
Section WithEnv.
Context `{Env}.

Definition isAdded (alreadyAdded : JsObj.t bool) (timeUnit : string) : bool :=
  JsObj.truthy (JsObj.get timeUnit alreadyAdded).

(** One step of the scan: the captured [alreadyAdded] and the accumulator. *)
Definition visit (fd : FieldDef) (channel : Channel)
  (s : JsObj.t bool * list VgData) : JsObj.t bool * list VgData :=
  let '(alreadyAdded, aggregator) := s in
  if truthyStr (fd_timeUnit fd) then
    let timeUnit := propertyKey (fd_timeUnit fd) in
    match rawDomain timeUnit channel with
    | Some domain =>
        if negb (isAdded alreadyAdded timeUnit) then
          (JsObj.set timeUnit true alreadyAdded,
           push aggregator
             {| vg_name := timeUnit; vg_source := None;
                vg_values := Some (JArr (map JNum domain));
                vg_format := None; vg_url := None;
                vg_transform :=
                  [Formula "date"
                     (EStr (parseExpression timeUnit "datum.data" true))] |})
        else s
    | None => s
    end
  else s.

Definition defs (m : Model) : list VgData :=
  snd (reduce m (fun s fd channel => visit fd channel s) (JsObj.empty, [])).

End WithEnv.
End dates.

(** ** The post-processors and the orchestrator *)
Section Orchestrator.
Context `{Env}.

(** [rankTransform] assigns a new [transform] to the dataset it is given;
    the result is that dataset after the call. *)
Definition rankTransform (dataTable : VgData) (m : Model) : VgData :=
  if has m COLOR && optTypeIs (fd_type (fieldDef m COLOR)) ORDINAL then
    setTransform dataTable
      (vg_transform dataTable ++
       [Sort (modelField m COLOR noOpt);
        Rank (modelField m COLOR noOpt) (modelField m COLOR (optPrefn "rank_"))])%list
  else dataTable.

Definition isLog (s : option Scale) : bool :=
  match s with
  | Some s => optStringIs (sc_type s) "log"
  | None => false
  end.

(** [filterNonPositiveForLog] pushes onto the [transform] array of the
    dataset it is given. *)
Definition filterNonPositiveForLog (dataTable : VgData) (m : Model) : VgData :=
  forEach m
    (fun _ channel dataTable =>
       let scale := scale m channel in
       if isLog scale then
         setTransform dataTable
           (push (vg_transform dataTable)
              (Filter (modelField m channel optDatum ++ " > 0")))
       else dataTable)
    dataTable.

(** [f(def[def.length - 1])] for an [f] that mutates its argument: the
    running list after the call. *)
Fixpoint onLast (f : VgData -> VgData) (def : list VgData) : list VgData :=
  match def with
  | [] => []
  | [d] => [f d]
  | d :: def' => d :: onLast f def'
  end.

(** The running list [def] after the two post-processors have run. *)
Definition postProcess (m : Model) (def : list VgData) : list VgData :=
  let def := onLast (fun d => rankTransform d m) def in
  onLast (fun d => filterNonPositiveForLog d m) def.

Definition compileData (m : Model) : result (list VgData) :=
  let def := [source.def m] in
  let summaryDef := summary.def m in
  let def :=
    match summaryDef with
    | Some s => push def s
    | None => def
    end in
  let def := onLast (fun d => rankTransform d m) def in
  let def := onLast (fun d => filterNonPositiveForLog d m) def in
  layoutDef <- layout.def m ;;
  let def := push def layoutDef in
  let stackDef := stack m in
  let def :=
    match stackDef with
    | Some sp => push def (stack.def m sp)
    | None => def
    end in
  ret (def ++ dates.defs m)%list.

End Orchestrator.

(** ** Vocabulary of the properties *)
Section Vocabulary.
Context `{Env}.





(** The kinds of transform. *)
Definition isFilter (t : Transform) : bool :=
  match t with Filter _ => true | _ => false end.

Definition isFormula (t : Transform) : bool :=
  match t with Formula _ _ => true | _ => false end.

Definition isBin (t : Transform) : bool :=
  match t with Bin _ _ _ _ => true | _ => false end.

Definition isSort (t : Transform) : bool :=
  match t with Sort _ => true | _ => false end.

Definition isRank (t : Transform) : bool :=
  match t with Rank _ _ => true | _ => false end.

(** The five stages of the source dataset's transform list. *)
Inductive Stage : Type :=
| NullFilterStage | FormulaStage | FilterStage | BinStage | TimeUnitStage.

Definition stageRank (s : Stage) : nat :=
  match s with
  | NullFilterStage => 0
  | FormulaStage => 1
  | FilterStage => 2
  | BinStage => 3
  | TimeUnitStage => 4
  end.

Definition stageTransforms (m : Model) (s : Stage) : list Transform :=
  match s with
  | NullFilterStage => source.nullFilterTransform m
  | FormulaStage => source.formulaTransform m
  | FilterStage => source.filterTransform m
  | BinStage => source.binTransform m
  | TimeUnitStage => source.timeTransform m
  end.

(** The transforms of the five stages, each tagged with its stage. *)
Definition staged (m : Model) : list (Stage * Transform) :=
  flat_map (fun s => map (pair s) (stageTransforms m s))
    [NullFilterStage; FormulaStage; FilterStage; BinStage; TimeUnitStage].

(** The bin parameters that [extend] copies into the bin transform. *)
Definition binParams (b : option BinSpec) : BinProperties :=
  match b with
  | Some (BinObject p) => p
  | _ => {| bin_maxbins := None; bin_step := None |}
  end.

(** The range label of a binned field. *)
Definition rangeFormula (fd : FieldDef) : Transform :=
  Formula (field fd (optBinSuffix "_range"))
    (EStr (field fd (optDatumBinSuffix "_start") ++ " + '-' + " ++
           field fd (optDatumBinSuffix "_end"))).

(** What one scanned channel contributes to the bin stage: nothing when its
    field is not binned; else the bin transform, followed by the range label
    when the scale is ordinal or the channel is colour. *)
Definition binSegment (m : Model) (e : FieldDef * Channel) : list Transform :=
  let (fd, c) := e in
  if truthyBin (fd_bin fd) then
    source.binTrans fd c (fd_bin fd) ::
    (if optStringIs (scaleType (scale m c) fd c (mark m)) "ordinal"
        || Channel_eqb c COLOR
     then [rangeFormula fd] else [])
  else [].

(** What one scanned channel contributes to the time-unit stage. *)
Definition timeSegment (e : FieldDef * Channel) : list Transform :=
  let (fd, _) := e in
  if optTypeIs (fd_type fd) TEMPORAL && truthyStr (fd_timeUnit fd) then
    [Formula (field fd noOpt)
       (EStr (parseExpression (propertyKey (fd_timeUnit fd))
                (field fd optNofnDatum) false))]
  else [].

(** The names a scanned channel adds to the group-by of the summary: the
    start, mid and end names of a binned field, with the range name when its
    scale is ordinal; else the field reference itself. *)
Definition dimensionNames (m : Model) (e : FieldDef * Channel) : list string :=
  let (fd, c) := e in
  if truthyBin (fd_bin fd) then
    ([field fd (optBinSuffix "_start");
      field fd (optBinSuffix "_mid");
      field fd (optBinSuffix "_end")] ++
     (if optStringIs (scaleType (scale m c) fd c (mark m)) "ordinal"
      then [field fd (optBinSuffix "_range")] else []))%list
  else [field fd noOpt].


(** The dimension names of the scanned channels that declare no aggregate,
    in scan order. *)
Definition dimensionList (m : Model) (l : list (FieldDef * Channel)) : list string :=
  flat_map
    (fun e => if truthyStr (fd_aggregate (fst e)) then [] else dimensionNames m e)
    l.

(** The standalone dataset of a time unit: its raw domain as inline values
    and one formula that maps each value to its time-unit representation. *)
Definition dateDef (timeUnit : string) (domain : list number) : VgData :=
  {| vg_name := timeUnit; vg_source := None;
     vg_values := Some (JArr (map JNum domain));
     vg_format := None; vg_url := None;
     vg_transform :=
       [Formula "date" (EStr (parseExpression timeUnit "datum.data" true))] |}.

(** The scanned pair [(fd, c)] carries the time unit [timeUnit], with the
    raw domain [domain] on its channel. *)
Definition hasDomain (e : FieldDef * Channel) (timeUnit : string)
  (domain : list number) : Prop :=
  fd_timeUnit (fst e) = Some timeUnit /\ timeUnit <> "" /\
  rawDomain timeUnit (snd e) = Some domain.

(** [d] is the dataset of the first pair of [l] that carries its time unit
    with a raw domain. *)
Definition firstWithDomain (l : list (FieldDef * Channel)) (d : VgData) : Prop :=
  exists pre e post domain,
    l = (pre ++ e :: post)%list /\
    hasDomain e (vg_name d) domain /\
    d = dateDef (vg_name d) domain /\
    forall e' domain', In e' pre -> ~ hasDomain e' (vg_name d) domain'.

(** The invariant of the scan of [dates.defs] after the pairs [seen]. *)
Definition datesInv (seen : list (FieldDef * Channel))
  (s : JsObj.t bool * list VgData) : Prop :=
  (forall timeUnit, JsObj.inherited timeUnit = false ->
                    (dates.isAdded (fst s) timeUnit = true <->
                     In timeUnit (map vg_name (snd s)))) /\
  NoDup (map vg_name (snd s)) /\
  (forall d, In d (snd s) -> firstWithDomain seen d) /\
  (forall e timeUnit domain, In e seen -> hasDomain e timeUnit domain ->
                             In timeUnit (map vg_name (snd s))).

(** The colour channel is bound to a field of ordinal type. *)
Definition colorOrdinal (m : Model) : bool :=
  has m COLOR && optTypeIs (fd_type (fieldDef m COLOR)) ORDINAL.

(** What the rank post-processor appends. *)
Definition rankTransforms (m : Model) : list Transform :=
  if colorOrdinal m then
    [Sort (modelField m COLOR noOpt);
     Rank (modelField m COLOR noOpt) (modelField m COLOR (optPrefn "rank_"))]
  else [].

(** The present channels whose scale has type [log], in scan order, and
    the filter of each. *)
Definition logChannels (m : Model) : list Channel :=
  List.filter (fun c => isLog (scale m c)) (map snd (scan m)).

Definition logFilter (m : Model) (c : Channel) : Transform :=
  Filter (modelField m c optDatum ++ " > 0").

Definition logFilters (m : Model) : list Transform :=
  map (logFilter m) (logChannels m).

(** The running list of the orchestrator before the post-processors run,
    and its last dataset: the summary if there is one, else the source. *)
Definition built (m : Model) : list VgData :=
  source.def m :: match summary.def m with Some s => [s] | None => [] end.

Definition trailing (m : Model) : VgData :=
  match summary.def m with
  | Some s => s
  | None => source.def m
  end.

Definition beforeTrailing (m : Model) : list VgData :=
  match summary.def m with
  | Some _ => [source.def m]
  | None => []
  end.

(** A transform that is neither a sort nor a rank. *)
Definition plain (t : Transform) : bool := negb (isSort t || isRank t).

(** In every dataset that [compileData] returns, nothing follows a sort
    transform and the rank transform next to it. *)
Definition rankClosesDataset (m : Model) : Prop :=
  forall ds d pre by_ fld rk post,
    compileData m = Some ds -> In d ds ->
    vg_transform d = (pre ++ Sort by_ :: Rank fld rk :: post)%list ->
    post = [].

(** [name] reads as the output field of a calculation: it is the field of
    one of the user's calculations, or a member name of [Object.prototype],
    which the dictionary of these fields inherits. *)
Definition calculated (m : Model) (name : string) : bool :=
  existsb (fun f => calc_field f =? name)
    (match tr_calculate (transform m) with Some l => l | None => [] end)
  || JsObj.inherited name.

(** How the field of a scanned field definition is parsed: a temporal field
    as a date; a quantitative field as a number, unless it is a count or
    the output of a calculation; any other field not at all. *)
Definition parseKind (m : Model) (fd : FieldDef) : option string :=
  if optTypeIs (fd_type fd) TEMPORAL then Some "date"
  else if optTypeIs (fd_type fd) QUANTITATIVE then
    if isCount fd || calculated m (propertyKey (fd_field fd)) then None
    else Some "number"
  else None.

(** The channel is present with an ordinal scale and no explicit domain
    array: the layout needs its distinct count. *)
Definition needsDistinct (m : Model) (c : Channel) : bool :=
  has m c && isOrdinalScale m c &&
  match scale m c with
  | Some s => negb (layout.domainIsArray s)
  | None => false
  end.

Definition distinctRequest (m : Model) (c : Channel) : SummarizeField :=
  {| sum_field := modelField m c noOpt; sum_ops := ["distinct"] |}.

(** The distinct counts the layout asks for, over x, y, row and column. *)
Definition distinctRequests (m : Model) : list SummarizeField :=
  map (distinctRequest m) (List.filter (needsDistinct m) [X; Y; ROW; COLUMN]).

(** The channel is present with an ordinal scale, but has no scale
    configuration to read. *)
Definition ordinalWithoutScale (m : Model) (c : Channel) : Prop :=
  has m c = true /\ isOrdinalScale m c = true /\ scale m c = None.

(** Some present channel declares an aggregate. *)
Definition anyAggregate (m : Model) : bool :=
  existsb (fun e => truthyStr (fd_aggregate (fst e))) (scan m).

(** The key under which an aggregated field registers its operation: the
    wildcard for a count, else the field. *)
Definition measureKey (fd : FieldDef) : string :=
  if optStringIs (fd_aggregate fd) "count" then "*"
  else propertyKey (fd_field fd).

(** [fd] is a present field definition that registers the operation [op]
    under the key [k]. *)
Definition registers (m : Model) (k op : string) : Prop :=
  exists fd c,
    In (fd, c) (scan m) /\ truthyStr (fd_aggregate fd) = true /\
    measureKey fd = k /\ fd_aggregate fd = Some op.

(** The transform writes the field [name]. *)
Definition writes (t : Transform) (name : string) : Prop :=
  match t with
  | Formula f _ => name = f
  | Bin _ out _ _ => name = out_start out \/ name = out_mid out \/ name = out_end out
  | _ => False
  end.

(** The names of the datasets of a model, in the order of [compileData]. *)
Definition datasetNames (m : Model) : list string :=
  ([SOURCE] ++ (if anyAggregate m then [SUMMARY] else []) ++ [LAYOUT] ++
   (match stack m with Some _ => [STACKED_SCALE] | None => [] end) ++
   map vg_name (dates.defs m))%list.

(** The reserved dataset names are distinct and no time unit with a raw
    domain bears one of them. *)
Definition reservedNamesApart : Prop :=
  NoDup [SOURCE; SUMMARY; LAYOUT; STACKED_SCALE] /\
  forall name c, In name [SOURCE; SUMMARY; LAYOUT; STACKED_SCALE] ->
                 rawDomain name c = None.

(** The invariant of [meas] in the scan of [summary.def] after the pairs
    [seen]: distinct keys, each with the operations registered under it. *)
Definition measInv (seen : list (FieldDef * Channel))
  (meas : JsObj.t (JsObj.t bool)) : Prop :=
  NoDup (map fst meas) /\
  (forall k inner, In (k, inner) meas ->
     NoDup (map fst inner) /\
     forall op, In op (map fst inner) <->
       (exists e, In e seen /\ truthyStr (fd_aggregate (fst e)) = true /\
                  measureKey (fst e) = k /\ fd_aggregate (fst e) = Some op) /\
       op <> "__proto__") /\
  (forall k, In k (map fst meas) <->
     exists e, In e seen /\ truthyStr (fd_aggregate (fst e)) = true /\
               measureKey (fst e) = k).





(** Every measure is stored under a key that is no member name of
    [Object.prototype]: there [meas[k] || {}] starts from a new object. *)
Definition measuresOwnKeys (m : Model) : Prop :=
  forall fd c, In (fd, c) (scan m) ->
    truthyStr (fd_aggregate fd) = true ->
    JsObj.inherited (measureKey fd) = false.

End Vocabulary.

(** ** A sample environment

    One instance of the collaborators, with which the compiler is run on
    concrete models below.  The theorems hold for every instance. *)
Module Sample.

Definition sampleField (fd : FieldDef) (opt : FieldRefOption) : string :=
  let prefix :=
    (if datum opt then "datum." else "") ++
    match prefn opt with Some p => p | None => "" end in
  let name := propertyKey (fd_field fd) in
  if optStringIs (fd_aggregate fd) "count" then prefix ++ "count"
  else if negb (nofn opt) && truthyBin (fd_bin fd) then
    prefix ++ "bin_" ++ name ++
    match binSuffix opt with Some s => s | None => "_start" end
  else if negb (nofn opt) && truthyStr (fd_aggregate fd) then
    prefix ++ propertyKey (fd_aggregate fd) ++ "_" ++ name
  else if negb (nofn opt) && truthyStr (fd_timeUnit fd) then
    prefix ++ propertyKey (fd_timeUnit fd) ++ "_" ++ name
  else prefix ++ name.

Definition sampleScaleType (s : option Scale) (fd : FieldDef) (c : Channel)
  (mk : Mark) : option string :=
  match s with
  | Some {| sc_type := Some t |} => Some t
  | _ =>
      match fd_type fd with
      | Some NOMINAL | Some ORDINAL => Some "ordinal"
      | Some TEMPORAL => Some "time"
      | Some QUANTITATIVE =>
          if truthyBin (fd_bin fd)
             && (Channel_eqb c ROW || Channel_eqb c COLUMN)
          then Some "ordinal" else Some "linear"
      | None => None
      end
  end.

Definition range (lo hi : nat) : list number :=
  map lengthNumber (seq lo (hi - lo)).

Definition sampleRawDomain (timeUnit : string) (c : Channel) : option (list number) :=
  if Channel_eqb c ROW || Channel_eqb c COLUMN || Channel_eqb c COLOR then None
  else if timeUnit =? "seconds" then Some (range 0 60)
  else if timeUnit =? "minutes" then Some (range 0 60)
  else if timeUnit =? "hours" then Some (range 0 24)
  else if timeUnit =? "day" then Some (range 0 7)
  else if timeUnit =? "date" then Some (range 1 32)
  else if timeUnit =? "month" then Some (range 0 12)
  else None.

Definition sampleParseExpression (timeUnit fieldRef : string) (onlyRef : bool)
  : string :=
  (if onlyRef then "" else "datetime:") ++ timeUnit ++ "(" ++ fieldRef ++ ")".

#[local] Instance env : Env := {|
  CHANNELS := [X; Y; ROW; COLUMN; OtherChannel "size"; OtherChannel "shape";
               COLOR; OtherChannel "text"; OtherChannel "detail"];
  SOURCE := "source";
  SUMMARY := "summary";
  LAYOUT := "layout";
  STACKED_SCALE := "stacked_scale";
  field := sampleField;
  isCount := fun fd => optStringIs (fd_aggregate fd) "count";
  autoMaxBins := fun c =>
    if Channel_eqb c ROW || Channel_eqb c COLUMN then 6%float else 10%float;
  scaleType := sampleScaleType;
  parseExpression := sampleParseExpression;
  rawDomain := sampleRawDomain;
  modelField := fun m c opt => sampleField (fieldDef m c) opt;
  isOrdinalScale := fun m c =>
    has m c
    && optStringIs (sampleScaleType (scale m c) (fieldDef m c) c (mark m)) "ordinal";
  rawDomain_timeUnit :=
    ltac:(intros timeUnit c Hinherited; unfold sampleRawDomain;
          destruct (Channel_eqb c ROW || Channel_eqb c COLUMN || Channel_eqb c COLOR);
          [reflexivity|];
          repeat match goal with
                 | |- context [timeUnit =? ?unit] =>
                     destruct (String.eqb_spec timeUnit unit) as [->|_];
                     [vm_compute in Hinherited; discriminate Hinherited|]
                 end;
          reflexivity)
|}.

Definition fd (name : string) (ty : VlType) : FieldDef :=
  {| fd_field := Some name; fd_type := Some ty; fd_aggregate := None;
     fd_bin := None; fd_timeUnit := None |}.

Definition withAggregate (op : string) (f : FieldDef) : FieldDef :=
  {| fd_field := fd_field f; fd_type := fd_type f; fd_aggregate := Some op;
     fd_bin := fd_bin f; fd_timeUnit := fd_timeUnit f |}.

Definition withBin (b : BinSpec) (f : FieldDef) : FieldDef :=
  {| fd_field := fd_field f; fd_type := fd_type f;
     fd_aggregate := fd_aggregate f; fd_bin := Some b;
     fd_timeUnit := fd_timeUnit f |}.

Definition withTimeUnit (u : string) (f : FieldDef) : FieldDef :=
  {| fd_field := fd_field f; fd_type := fd_type f;
     fd_aggregate := fd_aggregate f; fd_bin := fd_bin f;
     fd_timeUnit := Some u |}.

Definition defaultScale : Scale :=
  {| sc_type := None; sc_domain := None; sc_padding := Some 1%float;
     sc_bandWidth := Some 21%float |}.

Definition logScale : Scale :=
  {| sc_type := Some "log"; sc_domain := None; sc_padding := Some 1%float;
     sc_bandWidth := Some 21%float |}.

Definition facetScale : Scale :=
  {| sc_type := None; sc_domain := None; sc_padding := Some 16%float;
     sc_bandWidth := None |}.

Definition layoutScales (c : Channel) : option Scale :=
  match c with
  | ROW | COLUMN => Some facetScale
  | OtherChannel "text" | OtherChannel "detail" => None
  | _ => Some defaultScale
  end.

(** A model from its encoding, scales, mark and null-filter override. *)
Definition mkModel (enc : Channel -> option FieldDef)
  (scales : Channel -> option Scale) (mk : Mark) (fnull : option bool) : Model :=
  {| encoding := enc; scale := scales; mark := mk;
     transform := {| tr_filterNull := fnull; tr_filter := None;
                     tr_calculate := None |};
     data := {| data_values := None; data_url := Some "data/cars.json";
                data_formatType := Some "json" |};
     hasValues := false;
     config_unit := {| unit_width := 200%float; unit_height := 150%float |};
     dataTable := "source";
     stack := None |}.

(** A text table with no channel bound. *)
Definition emptyText : Model :=
  mkModel (fun _ => None) layoutScales TEXT_MARK None.

(** A scatterplot: two quantitative positions. *)
Definition scatter : Model :=
  mkModel
    (fun c =>
       match c with
       | X => Some (fd "Horsepower" QUANTITATIVE)
       | Y => Some (fd "Miles_per_Gallon" QUANTITATIVE)
       | _ => None
       end)
    layoutScales (OtherMark "point") None.

(** Ordinal colour over a log-scaled x. *)
Definition rankedLog : Model :=
  mkModel
    (fun c =>
       match c with
       | X => Some (fd "Horsepower" QUANTITATIVE)
       | Y => Some (fd "Origin" NOMINAL)
       | COLOR => Some (fd "Cylinders" ORDINAL)
       | _ => None
       end)
    (fun c => match c with X => Some logScale | _ => layoutScales c end)
    (OtherMark "point") None.

(** A bar chart: a quantitative x over a nominal y, no facet. *)
Definition bars : Model :=
  mkModel
    (fun c =>
       match c with
       | X => Some (fd "Horsepower" QUANTITATIVE)
       | Y => Some (fd "Origin" NOMINAL)
       | _ => None
       end)
    layoutScales (OtherMark "bar") None.

(** A count by a nominal field, with the null filter forced on. *)
Definition countByOrigin : Model :=
  mkModel
    (fun c =>
       match c with
       | X => Some (withAggregate "count" (fd "*" QUANTITATIVE))
       | Y => Some (fd "Origin" NOMINAL)
       | _ => None
       end)
    layoutScales (OtherMark "bar") (Some true).

(** What [compileData] returns for [rankedLog]. *)
Definition rankedLogOutput : list VgData :=
  [{| vg_name := "source"; vg_source := None; vg_values := None;
      vg_format :=
        Some {| format_type := Some "json";
                format_parse := Some [("Horsepower", "number")] |};
      vg_url := Some "data/cars.json";
      vg_transform :=
        [Filter "datum.Horsepower!==null";
         Sort "Cylinders";
         Rank "Cylinders" "rank_Cylinders";
         Filter "datum.Horsepower > 0"] |};
   {| vg_name := "layout"; vg_source := Some "source"; vg_values := None;
      vg_format := None; vg_url := None;
      vg_transform :=
        [Aggregate None
           (SummarizeList [{| sum_field := "Origin"; sum_ops := ["distinct"] |}]);
         Formula "cellWidth" (ENum 200%float);
         Formula "cellHeight" (EStr "(datum.distinct_Origin + 1) * 21");
         Formula "width" (ENum 200%float);
         Formula "height" (ENum 200%float)] |}].

(** Fields whose names are array indices, and one field on two channels. *)
Definition years : Model :=
  mkModel
    (fun c =>
       match c with
       | X => Some (fd "b" QUANTITATIVE)
       | Y => Some (fd "2000" QUANTITATIVE)
       | OtherChannel "size" => Some (fd "1990" QUANTITATIVE)
       | COLOR => Some (fd "b" QUANTITATIVE)
       | _ => None
       end)
    layoutScales (OtherMark "point") None.

(** A histogram: a binned x, a count on y, and a binned colour with an
    explicit number of bins. *)
Definition histogram : Model :=
  mkModel
    (fun c =>
       match c with
       | X => Some (withBin (BinBool true) (fd "Horsepower" QUANTITATIVE))
       | Y => Some (withAggregate "count" (fd "*" QUANTITATIVE))
       | COLOR =>
           Some (withBin
                   (BinObject {| bin_maxbins := Some 5%float; bin_step := None |})
                   (fd "Acceleration" QUANTITATIVE))
       | _ => None
       end)
    layoutScales (OtherMark "bar") None.

(** Time units: the month twice, the day, and hours on a facet channel. *)
Definition months : Model :=
  mkModel
    (fun c =>
       match c with
       | X => Some (withTimeUnit "month" (fd "date" TEMPORAL))
       | Y => Some (withTimeUnit "day" (fd "date" TEMPORAL))
       | ROW => Some (withTimeUnit "hours" (fd "date" TEMPORAL))
       | OtherChannel "size" => Some (withTimeUnit "month" (fd "date" TEMPORAL))
       | _ => None
       end)
    layoutScales (OtherMark "point") None.

(** A month read off a field that is typed ordinal. *)
Definition ordinalMonth : Model :=
  mkModel
    (fun c =>
       match c with
       | X => Some (withTimeUnit "month" (fd "date" ORDINAL))
       | Y => Some (fd "Miles_per_Gallon" QUANTITATIVE)
       | _ => None
       end)
    layoutScales (OtherMark "point") None.




(** The bar chart with a fractional padding on the band scale of y. *)
Definition halfPadded : Model :=
  mkModel
    (fun c =>
       match c with
       | X => Some (fd "Horsepower" QUANTITATIVE)
       | Y => Some (fd "Origin" NOMINAL)
       | _ => None
       end)
    (fun c =>
       match c with
       | Y => Some {| sc_type := None; sc_domain := None;
                      sc_padding := Some 0.5%float;
                      sc_bandWidth := Some 21%float |}
       | _ => layoutScales c
       end)
    (OtherMark "bar") None.

End Sample.

(** * Properties *)

(** ** Dictionaries *)
Module JsObjFacts.
Import JsObj.

Section Facts.
Context {V : Type}.
Implicit Types (o : t V) (k : string) (v : V).

Lemma define_keys_In k k' v o :
  In k (map fst (define k' v o)) <-> k = k' \/ In k (map fst o).
Proof.
  induction o as [|[k0 v0] o IH]; simpl.
  - intuition.
  - destruct (String.eqb_spec k' k0) as [->|Hne]; simpl.
    + intuition.
    + rewrite IH. intuition.
Qed.

Lemma define_keys_NoDup k v o :
  NoDup (map fst o) -> NoDup (map fst (define k v o)).
Proof.
  induction o as [|[k0 v0] o IH]; simpl; intros Hnd.
  - constructor; [intros []|constructor].
  - inversion Hnd as [|? ? Hnotin Hnd']; subst.
    destruct (String.eqb_spec k k0) as [->|Hne]; simpl.
    + constructor; assumption.
    + constructor; [|auto].
      rewrite define_keys_In. intros [Heq|Hin]; [congruence|contradiction].
Qed.

Lemma define_entries_In k v o (e : string * V) :
  In e (define k v o) -> e = (k, v) \/ In e o.
Proof.
  induction o as [|[k0 v0] o IH]; simpl.
  - intros [<-|[]]. now left.
  - destruct (String.eqb_spec k k0) as [->|Hne]; simpl.
    + intros [<-|Hin]; auto.
    + intros [<-|Hin]; auto. destruct (IH Hin); auto.
Qed.

Lemma own_define_same k v o : own k (define k v o) = Some v.
Proof.
  induction o as [|[k0 v0] o IH]; simpl.
  - now rewrite String.eqb_refl.
  - destruct (String.eqb_spec k k0) as [->|Hne]; simpl.
    + now rewrite String.eqb_refl.
    + destruct (String.eqb_spec k k0); [contradiction|assumption].
Qed.

Lemma own_define_other k k' v o : k <> k' -> own k (define k' v o) = own k o.
Proof.
  intros Hne. induction o as [|[k0 v0] o IH]; simpl.
  - destruct (String.eqb_spec k k'); [contradiction|reflexivity].
  - destruct (String.eqb_spec k' k0) as [->|Hne']; simpl.
    + destruct (String.eqb_spec k k0); [contradiction|reflexivity].
    + destruct (String.eqb_spec k k0); [reflexivity|assumption].
Qed.

Lemma own_None_not_In k o : own k o = None <-> ~ In k (map fst o).
Proof.
  induction o as [|[k0 v0] o IH]; simpl.
  - intuition.
  - destruct (String.eqb_spec k k0) as [->|Hne].
    + split; [discriminate|]. intros Hn. exfalso. apply Hn. now left.
    + rewrite IH. intuition.
Qed.

(** Assignment: the key [__proto__] is never recorded. *)
Lemma set_proto v o : set "__proto__" v o = o.
Proof. reflexivity. Qed.

Lemma set_define k v o : k <> "__proto__" -> set k v o = define k v o.
Proof.
  intros Hne. unfold set. destruct (String.eqb_spec k "__proto__");
    [contradiction|reflexivity].
Qed.

Lemma set_keys_In k k' v o :
  In k (map fst (set k' v o)) <->
  (k = k' /\ k' <> "__proto__") \/ In k (map fst o).
Proof.
  unfold set. destruct (String.eqb_spec k' "__proto__") as [->|Hne].
  - intuition.
  - rewrite define_keys_In. intuition.
Qed.

Lemma set_keys_NoDup k v o :
  NoDup (map fst o) -> NoDup (map fst (set k v o)).
Proof.
  unfold set. destruct (k =? "__proto__"); [auto|apply define_keys_NoDup].
Qed.

Lemma set_entries_In k v o (e : string * V) :
  In e (set k v o) -> (e = (k, v) /\ k <> "__proto__") \/ In e o.
Proof.
  unfold set. destruct (String.eqb_spec k "__proto__") as [->|Hne].
  - now right.
  - intros Hin. apply define_entries_In in Hin. intuition.
Qed.

Lemma own_set_same k v o : k <> "__proto__" -> own k (set k v o) = Some v.
Proof. intros Hne. rewrite set_define by assumption. apply own_define_same. Qed.

Lemma own_set_other k k' v o : k <> k' -> own k (set k' v o) = own k o.
Proof.
  intros Hne. unfold set. destruct (k' =? "__proto__"); [reflexivity|].
  now apply own_define_other.
Qed.

Lemma insertByIndex_perm (e : string * V) l :
  Permutation (insertByIndex e l) (e :: l).
Proof.
  induction l as [|e' l IH]; simpl.
  - reflexivity.
  - destruct (indexOf e <=? indexOf e')%N.
    + reflexivity.
    + rewrite IH. apply perm_swap.
Qed.

Lemma sortByIndex_perm (l : list (string * V)) : Permutation (sortByIndex l) l.
Proof.
  induction l as [|e l IH]; simpl.
  - reflexivity.
  - rewrite insertByIndex_perm. now constructor.
Qed.

Lemma filter_split_perm (p : string * V -> bool) (l : list (string * V)) :
  Permutation (List.filter p l ++ List.filter (fun e => negb (p e)) l) l.
Proof.
  induction l as [|e l IH]; simpl.
  - reflexivity.
  - destruct (p e); simpl.
    + now constructor.
    + rewrite <- Permutation_middle. now constructor.
Qed.

Lemma entries_perm o : Permutation (entries o) o.
Proof.
  unfold entries. rewrite sortByIndex_perm. apply filter_split_perm.
Qed.

Lemma keys_In k o : In k (keys o) <-> In k (map fst o).
Proof.
  unfold keys. split; apply Permutation_in, Permutation_map;
    [|symmetry]; apply entries_perm.
Qed.

Lemma keys_NoDup o : NoDup (map fst o) -> NoDup (keys o).
Proof.
  unfold keys. apply Permutation_NoDup, Permutation_map.
  symmetry. apply entries_perm.
Qed.

Lemma keys_nil o : keys o = [] <-> o = [].
Proof.
  split.
  - intros Hk. destruct o as [|e o]; [reflexivity|].
    assert (In (fst e) (keys (e :: o))) as Hin
      by (apply keys_In; now left).
    rewrite Hk in Hin. destruct Hin.
  - intros ->. reflexivity.
Qed.

(** A dictionary filled by a scan: which keys it ends with. *)
Lemma fold_set_keys {A : Type} (p : A -> bool) (key : A -> string)
  (val : A -> V) (xs : list A) o :
  let o' := fold_left (fun o x => if p x then set (key x) (val x) o else o) xs o in
  (NoDup (map fst o) -> NoDup (map fst o')) /\
  (forall k, In k (map fst o') <->
             In k (map fst o) \/
             exists x, In x xs /\ p x = true /\ key x = k /\ k <> "__proto__") /\
  (forall e, In e o' ->
             In e o \/ exists x, In x xs /\ p x = true /\ e = (key x, val x)).
Proof.
  revert o. induction xs as [|x xs IH]; intros o; simpl.
  - repeat split; auto.
    + intros [Hin|(x & [] & _)]. exact Hin.
  - specialize (IH (if p x then set (key x) (val x) o else o)).
    destruct IH as (IHnd & IHin & IHval).
    repeat split.
    + intros Hnd. apply IHnd. destruct (p x); [now apply set_keys_NoDup|assumption].
    + intros Hin. apply IHin in Hin. destruct Hin as [Hin|(y & Hy & Hp & Hk)].
      * destruct (p x) eqn:Hpx.
        -- apply set_keys_In in Hin. destruct Hin as [(-> & Hne)|Hin]; [|now left].
           right. exists x. auto.
        -- now left.
      * right. exists y. intuition.
    + intros Hin. apply IHin. destruct Hin as [Hin|(y & [<-|Hy] & Hp & Hk & Hne)].
      * left. destruct (p x); [apply set_keys_In; now right|assumption].
      * left. rewrite Hp. apply set_keys_In. left. split; congruence.
      * right. exists y. auto.
    + intros e Hin. apply IHval in Hin. destruct Hin as [Hin|(y & Hy & Hp & He)].
      * destruct (p x) eqn:Hpx.
        -- apply set_entries_In in Hin. destruct Hin as [(-> & _)|Hin]; [|now left].
           right. exists x. auto.
        -- now left.
      * right. exists y. auto.
Qed.

End Facts.


End JsObjFacts.

(** ** The scan of a model *)
Section ScanFacts.
Context `{Env}.

Lemma fold_left_flat_map {A B C : Type} (f : A -> B -> A) (g : C -> list B)
  (l : list C) (a : A) :
  fold_left f (flat_map g l) a = fold_left (fun a x => fold_left f (g x) a) l a.
Proof.
  revert a. induction l as [|x l IH]; intros a; simpl.
  - reflexivity.
  - now rewrite fold_left_app, IH.
Qed.

Lemma reduce_scan {A : Type} (m : Model) (f : A -> FieldDef -> Channel -> A)
  (init : A) :
  reduce m f init = fold_left (fun r e => f r (fst e) (snd e)) (scan m) init.
Proof.
  unfold reduce, scan. rewrite fold_left_flat_map.
  generalize init. induction CHANNELS as [|c l IH]; intros a; simpl.
  - reflexivity.
  - rewrite IH. now destruct (has m c).
Qed.

Lemma forEach_scan {S : Type} (m : Model) (f : FieldDef -> Channel -> S -> S)
  (s : S) :
  forEach m f s = fold_left (fun s e => f (fst e) (snd e) s) (scan m) s.
Proof.
  unfold forEach, scan. rewrite fold_left_flat_map.
  generalize s. induction CHANNELS as [|c l IH]; intros a; simpl.
  - reflexivity.
  - rewrite IH. now destruct (has m c).
Qed.

Lemma scan_In (m : Model) (fd : FieldDef) (c : Channel) :
  In (fd, c) (scan m) <->
  In c CHANNELS /\ has m c = true /\ fd = fieldDef m c.
Proof.
  unfold scan. rewrite in_flat_map. split.
  - intros (c' & Hc & Hin). destruct (has m c') eqn:Hhas; simpl in Hin.
    + destruct Hin as [[= <- <-]|[]]. auto.
    + destruct Hin.
  - intros (Hc & Hhas & ->). exists c. split; [assumption|].
    rewrite Hhas. now left.
Qed.

(** A scanned field definition names a non-empty field. *)
Lemma scan_field (m : Model) (fd : FieldDef) (c : Channel) :
  In (fd, c) (scan m) -> exists name, fd_field fd = Some name /\ name <> "".
Proof.
  intros Hin. apply scan_In in Hin. destruct Hin as (_ & Hhas & ->).
  unfold has, fieldDef in *. destruct (encoding m c) as [fd|]; [|discriminate].
  destruct (fd_field fd) as [name|]; [|discriminate].
  exists name. split; [reflexivity|]. simpl in Hhas.
  destruct (String.eqb_spec name ""); [discriminate|assumption].
Qed.

(** An array filled by [push] in a fold is the concatenation of what each
    step pushes. *)
Lemma fold_push_flat_map {A B : Type} (g : A -> list B) (xs : list A)
  (acc : list B) :
  fold_left (fun acc x => (acc ++ g x)%list) xs acc
  = (acc ++ flat_map g xs)%list.
Proof.
  revert acc. induction xs as [|x xs IH]; intros acc; simpl.
  - now rewrite app_nil_r.
  - now rewrite IH, app_assoc.
Qed.

End ScanFacts.

(** ** The source dataset *)
Section SourceFacts.
Context `{Env}.

Lemma optStringIs_true (o : option string) (s : string) :
  optStringIs o s = true <-> o = Some s.
Proof.
  destruct o as [s'|]; simpl.
  - destruct (String.eqb_spec s' s); split; congruence.
  - split; discriminate.
Qed.



End SourceFacts.

Section StageFacts.
Context `{Env}.

(** An array filled by [push] along a scan is the concatenation of what each
    step pushes. *)
Lemma fold_left_append {A B : Type} (f : list B -> A -> list B)
  (g : A -> list B) (xs : list A) :
  (forall acc x, In x xs -> f acc x = (acc ++ g x)%list) ->
  forall acc, fold_left f xs acc = (acc ++ flat_map g xs)%list.
Proof.
  induction xs as [|x xs IH]; intros Hf acc; simpl.
  - now rewrite app_nil_r.
  - rewrite IH by (intros; apply Hf; now right).
    rewrite Hf by now left. now rewrite app_assoc.
Qed.

Lemma Channel_eqb_eq (a b : Channel) : Channel_eqb a b = true <-> a = b.
Proof.
  destruct a, b; simpl; split; try congruence; try discriminate.
  - intros Heq. apply String.eqb_eq in Heq. now subst.
  - intros [= ->]. apply String.eqb_refl.
Qed.

Lemma binTransform_flat_map (m : Model) :
  source.binTransform m = flat_map (binSegment m) (scan m).
Proof.
  unfold source.binTransform. rewrite reduce_scan.
  rewrite (fold_left_append _ (binSegment m)); [reflexivity|].
  intros acc [fd c] Hin. apply scan_In in Hin. destruct Hin as (_ & _ & ->).
  unfold binSegment, rangeFormula, push. simpl.
  destruct (truthyBin (fd_bin (fieldDef m c))).
  - destruct (optStringIs _ "ordinal" || Channel_eqb c COLOR);
      now rewrite <- ?app_assoc.
  - now rewrite app_nil_r.
Qed.

Lemma timeTransform_flat_map (m : Model) :
  source.timeTransform m = flat_map timeSegment (scan m).
Proof.
  unfold source.timeTransform. rewrite reduce_scan.
  rewrite (fold_left_append _ timeSegment); [reflexivity|].
  intros acc [fd c] _. unfold timeSegment, push. simpl.
  destruct (optTypeIs (fd_type fd) TEMPORAL && truthyStr (fd_timeUnit fd)).
  - reflexivity.
  - now rewrite app_nil_r.
Qed.

Lemma formulaTransform_map (m : Model) :
  source.formulaTransform m =
  map (fun f => Formula (calc_field f) (EStr (calc_expr f)))
    (match tr_calculate (transform m) with Some l => l | None => [] end).
Proof.
  unfold source.formulaTransform.
  rewrite (fold_left_append _
             (fun f => [Formula (calc_field f) (EStr (calc_expr f))])).
  - simpl. induction (match tr_calculate (transform m) with
                       | Some l => l | None => [] end) as [|f l IH]; simpl;
      [reflexivity|now rewrite IH].
  - reflexivity.
Qed.

End StageFacts.

(** ** The stages of the source dataset *)
Section SourceTheorems.
Context `{Env}.

Lemma StronglySorted_app {A : Type} (R : A -> A -> Prop) (l1 l2 : list A) :
  StronglySorted R l1 -> StronglySorted R l2 ->
  (forall x y, In x l1 -> In y l2 -> R x y) ->
  StronglySorted R (l1 ++ l2).
Proof.
  intros H1 H2 H12. induction H1 as [|x l1 Hss IH Hall]; simpl.
  - assumption.
  - constructor.
    + apply IH. intros; apply H12; [now right|assumption].
    + apply Forall_app. split; [assumption|].
      apply Forall_forall. intros y Hy. apply H12; [now left|assumption].
Qed.

Lemma tagged_sorted (s : Stage) (l : list Transform) :
  StronglySorted (fun x y : Stage * Transform => stageRank (fst x) <= stageRank (fst y))
    (map (pair s) l).
Proof.
  induction l as [|t l IH]; simpl; constructor.
  - assumption.
  - apply Forall_forall. intros y Hy. apply in_map_iff in Hy.
    destruct Hy as (t' & <- & _). simpl. lia.
Qed.

Lemma source_def_transform (m : Model) :
  vg_transform (source.def m) = source.transform m.
Proof.
  unfold source.def. destruct (hasValues m), (source.formatParse m); reflexivity.
Qed.

(** C3.  The transform list of the source dataset is the concatenation of
    the null-filter, formula, filter, bin and time-unit stages, in this
    order; read with the stage each transform comes from, it is sorted by
    stage, so no transform precedes one of an earlier stage. *)
Theorem source_transform_stages (m : Model) :
  vg_transform (source.def m) =
    (source.nullFilterTransform m ++ source.formulaTransform m ++
     source.filterTransform m ++ source.binTransform m ++
     source.timeTransform m)%list /\
  map snd (staged m) = vg_transform (source.def m) /\
  StronglySorted
    (fun x y : Stage * Transform => stageRank (fst x) <= stageRank (fst y))
    (staged m).
Proof.
  split; [apply source_def_transform|]. split.
  - rewrite source_def_transform. unfold staged, source.transform. simpl.
    rewrite app_nil_r, !map_app, !map_map. simpl. now rewrite !map_id.
  - unfold staged. simpl. rewrite app_nil_r.
    repeat (apply StronglySorted_app;
            [apply tagged_sorted| |
             intros x y Hx Hy; apply in_map_iff in Hx;
             destruct Hx as (tx & <- & _);
             repeat (apply in_app_or in Hy; destruct Hy as [Hy|Hy]);
             apply in_map_iff in Hy; destruct Hy as (ty & <- & _);
             simpl; lia]).
    apply tagged_sorted.
Qed.



End SourceTheorems.

(** ** The bin stage *)
Section BinTheorems.
Context `{Env}.

(** C8.  The bin stage is the concatenation, in scan order, of one segment
    per present channel.  A channel whose field is not binned contributes
    nothing.  A binned one contributes a bin transform whose output names
    are the [_start], [_mid] and [_end] references of the field, whose
    [maxbins] is [autoMaxBins] of the channel when the bin specification
    gives neither [maxbins] nor [step], and which is followed at once by the
    range formula exactly when the scale type is ordinal or the channel is
    colour. *)
Theorem binTransform_segments (m : Model) :
  source.binTransform m = flat_map (binSegment m) (scan m) /\
  forall fd c,
    (truthyBin (fd_bin fd) = false -> binSegment m (fd, c) = []) /\
    (truthyBin (fd_bin fd) = true ->
     exists maxbins step range,
       binSegment m (fd, c) =
         Bin (fd_field fd)
           {| out_start := field fd (optBinSuffix "_start");
              out_mid := field fd (optBinSuffix "_mid");
              out_end := field fd (optBinSuffix "_end") |}
           maxbins step :: range /\
       (bin_maxbins (binParams (fd_bin fd)) = None ->
        bin_step (binParams (fd_bin fd)) = None ->
        maxbins = Some (autoMaxBins c)) /\
       (truthyNum (bin_maxbins (binParams (fd_bin fd))) = true \/
        truthyNum (bin_step (binParams (fd_bin fd))) = true ->
        maxbins = bin_maxbins (binParams (fd_bin fd))) /\
       step = bin_step (binParams (fd_bin fd)) /\
       (range = [rangeFormula fd] \/ range = []) /\
       (range = [rangeFormula fd] <->
        scaleType (scale m c) fd c (mark m) = Some "ordinal" \/ c = COLOR)).
Proof.
  split; [apply binTransform_flat_map|].
  intros fd c. unfold binSegment. split; intros Hbin; rewrite Hbin.
  - reflexivity.
  - unfold source.binTrans. fold (binParams (fd_bin fd)).
    set (p := binParams (fd_bin fd)).
    set (ord := optStringIs (scaleType (scale m c) fd c (mark m)) "ordinal").
    assert (Hrange :
      (if ord || Channel_eqb c COLOR then [rangeFormula fd] else [])
        = [rangeFormula fd] <->
      scaleType (scale m c) fd c (mark m) = Some "ordinal" \/ c = COLOR).
    { rewrite <- optStringIs_true, <- Channel_eqb_eq. fold ord.
      destruct ord, (Channel_eqb c COLOR); simpl; split;
        auto; try discriminate; intros [|]; discriminate. }
    destruct (negb (truthyNum (bin_maxbins p)) && negb (truthyNum (bin_step p)))
      eqn:Hdefault.
    + exists (Some (autoMaxBins c)), (bin_step p),
        (if ord || Channel_eqb c COLOR then [rangeFormula fd] else []).
      repeat split; auto.
      * apply andb_prop in Hdefault. destruct Hdefault as (Hm & Hs).
        intros [Ht|Ht]; rewrite Ht in *; discriminate.
      * destruct (ord || Channel_eqb c COLOR); auto.
      * apply Hrange.
      * apply Hrange.
    + exists (bin_maxbins p), (bin_step p),
        (if ord || Channel_eqb c COLOR then [rangeFormula fd] else []).
      repeat split; auto.
      * intros Hm Hs. rewrite Hm, Hs in Hdefault. discriminate.
      * destruct (ord || Channel_eqb c COLOR); auto.
      * apply Hrange.
      * apply Hrange.
Qed.

End BinTheorems.

(** ** The summary dataset *)
Section SummaryTheorems.
Context `{Env}.

(** The state of the scan of [summary.def] after a list of channels. *)
Lemma summary_scan (m : Model) (l : list (FieldDef * Channel)) (s : summary.State) :
  let s' := fold_left (fun s e => summary.visit m (fst e) (snd e) s) l s in
  summary.hasAggregate s' =
    summary.hasAggregate s || existsb (fun e => truthyStr (fd_aggregate (fst e))) l /\
  summary.dims s' =
    fold_left (fun o k => JsObj.set k k o) (dimensionList m l) (summary.dims s).
Proof.
  revert s. induction l as [|[fd c] l IH]; intros s; simpl.
  - now rewrite orb_false_r.
  - destruct (IH (summary.visit m fd c s)) as (IHagg & IHdims).
    rewrite IHagg, IHdims. clear IHagg IHdims.
    unfold dimensionList. simpl. rewrite fold_left_app.
    unfold summary.visit, dimensionNames.
    destruct (truthyStr (fd_aggregate fd)) eqn:Hagg.
    + destruct (optStringIs (fd_aggregate fd) "count"); simpl;
        rewrite ?orb_true_r; split; reflexivity.
    + destruct (truthyBin (fd_bin fd)); simpl.
      * destruct (optStringIs (scaleType (scale m c) fd c (mark m)) "ordinal");
          simpl; split; reflexivity.
      * split; reflexivity.
Qed.


End SummaryTheorems.

(** ** The time-domain datasets *)
Section DatesTheorems.
Context `{Env}.

Lemma truthyStr_Some (o : option string) :
  truthyStr o = true <-> exists s, o = Some s /\ s <> "".
Proof.
  destruct o as [s|]; simpl.
  - destruct (String.eqb_spec s ""); split.
    + discriminate.
    + intros (s' & [= <-] & Hne). contradiction.
    + intros _. eauto.
    + reflexivity.
  - split; [discriminate|]. intros (s & Hs & _). discriminate.
Qed.

Lemma firstWithDomain_snoc (seen : list (FieldDef * Channel))
  (e : FieldDef * Channel) (d : VgData) :
  firstWithDomain seen d -> firstWithDomain (seen ++ [e]) d.
Proof.
  intros (pre & e0 & post & domain & -> & Hdom & Hd & Hfirst).
  exists pre, e0, (post ++ [e])%list, domain.
  rewrite <- app_assoc. simpl. auto.
Qed.

Lemma isAdded_set (o : JsObj.t bool) (k k' : string) :
  JsObj.inherited k = false ->
  dates.isAdded (JsObj.set k true o) k' = true <->
  k' = k \/ dates.isAdded o k' = true.
Proof.
  intros Hk. unfold dates.isAdded, JsObj.get.
  assert (Hne : k <> "__proto__") by (intros ->; discriminate Hk).
  destruct (String.eqb_spec k' k) as [->|Hne'].
  - rewrite JsObjFacts.own_set_same by assumption. simpl. intuition.
  - rewrite JsObjFacts.own_set_other by assumption. intuition.
Qed.

(** A time unit with a raw domain is no member name of [Object.prototype]. *)
Lemma rawDomain_not_inherited (timeUnit : string) (c : Channel)
  (domain : list number) :
  rawDomain timeUnit c = Some domain -> JsObj.inherited timeUnit = false.
Proof.
  intros Hraw. destruct (JsObj.inherited timeUnit) eqn:Hinh; [|reflexivity].
  rewrite (rawDomain_timeUnit timeUnit c Hinh) in Hraw. discriminate.
Qed.

Lemma dates_visit_inv (seen : list (FieldDef * Channel))
  (e : FieldDef * Channel) (s : JsObj.t bool * list VgData) :
  datesInv seen s ->
  datesInv (seen ++ [e]) (dates.visit (fst e) (snd e) s).
Proof.
  destruct s as [added agg], e as [fd c].
  intros (Hadded & Hnd & Hfirst & Hall). simpl in *.
  assert (Hkeep : forall d, In d agg -> firstWithDomain (seen ++ [(fd, c)]) d)
    by (intros; now apply firstWithDomain_snoc, Hfirst).
  assert (Hskip :
    (forall timeUnit domain, hasDomain (fd, c) timeUnit domain ->
                             In timeUnit (map vg_name agg)) ->
    datesInv (seen ++ [(fd, c)]) (added, agg)).
  { intros Hcov. repeat split; simpl; try assumption; try (now apply Hadded).
    intros e timeUnit domain Hin Hdom. apply in_app_or in Hin.
    destruct Hin as [Hin|[<-|[]]]; eauto. }
  unfold dates.visit.
  destruct (truthyStr (fd_timeUnit fd)) eqn:Htu.
  - apply truthyStr_Some in Htu. destruct Htu as (tu & Htu & Hne).
    rewrite Htu. simpl.
    destruct (rawDomain tu c) as [domain|] eqn:Hraw.
    + pose proof (rawDomain_not_inherited _ _ _ Hraw) as Hown.
      destruct (dates.isAdded added tu) eqn:Hisadded; simpl.
      * apply Hskip. intros timeUnit domain' (Ht & _ & _). simpl in Ht.
        rewrite Htu in Ht. injection Ht as <-. now apply Hadded.
      * assert (Hfresh : ~ In tu (map vg_name agg)).
        { intros Hin. apply Hadded in Hin; congruence. }
        unfold push. repeat split; simpl.
        -- rewrite isAdded_set, map_app, in_app_iff, Hadded by assumption.
           simpl. intuition.
        -- rewrite isAdded_set, map_app, in_app_iff, Hadded by assumption.
           simpl. intuition.
        -- rewrite map_app. simpl.
           apply NoDup_app_remove_l with (l := []). simpl.
           apply Permutation_NoDup with (l := tu :: map vg_name agg).
           ++ apply Permutation_cons_append.
           ++ now constructor.
        -- intros d Hd. apply in_app_or in Hd. destruct Hd as [Hd|[<-|[]]].
           ++ now apply Hkeep.
           ++ exists seen, (fd, c), [], domain. simpl.
              repeat split; auto.
              intros e' domain' Hin' Hdom'. apply Hfresh. eauto.
        -- intros e timeUnit domain' Hin Hdom. rewrite map_app, in_app_iff.
           apply in_app_or in Hin. destruct Hin as [Hin|[<-|[]]].
           ++ left. eauto.
           ++ right. destruct Hdom as (Ht & _ & _). simpl in Ht.
              rewrite Htu in Ht. injection Ht as <-. now left.
    + apply Hskip. intros timeUnit domain (Ht & _ & Hr). simpl in Ht, Hr.
      rewrite Htu in Ht. injection Ht as <-. congruence.
  - apply Hskip. intros timeUnit domain (Ht & Hne & _). simpl in Ht.
    rewrite Ht in Htu. simpl in Htu.
    destruct (String.eqb_spec timeUnit ""); [contradiction|discriminate].
Qed.

Lemma dates_scan_inv (rest seen : list (FieldDef * Channel))
  (s : JsObj.t bool * list VgData) :
  datesInv seen s ->
  datesInv (seen ++ rest)
    (fold_left (fun s e => dates.visit (fst e) (snd e) s) rest s).
Proof.
  revert seen s. induction rest as [|e rest IH]; intros seen s Hinv; simpl.
  - now rewrite app_nil_r.
  - replace (seen ++ e :: rest)%list with ((seen ++ [e]) ++ rest)%list
      by now rewrite <- app_assoc.
    apply IH. now apply dates_visit_inv.
Qed.

Lemma datesInv_start : datesInv [] (JsObj.empty, []).
Proof.
  unfold datesInv. simpl. split; [|split; [constructor|split; contradiction]].
  intros timeUnit Hown. unfold dates.isAdded, JsObj.get. simpl.
  rewrite Hown. split; [discriminate|contradiction].
Qed.

(** C9.  The datasets of [dates.defs] have distinct names.  Each one is the
    dataset of a time unit that a present channel carries with a raw
    domain, built from the first such channel in scan order: its values are
    that raw domain and its only transform is the formula on [date].  Every
    time unit that a present channel carries with a raw domain has its
    dataset. *)
Theorem dates_defs_first_occurrence (m : Model) :
  NoDup (map vg_name (dates.defs m)) /\
  (forall d, In d (dates.defs m) -> firstWithDomain (scan m) d) /\
  (forall e timeUnit domain,
     In e (scan m) -> hasDomain e timeUnit domain ->
     In timeUnit (map vg_name (dates.defs m))).
Proof.
  unfold dates.defs. rewrite reduce_scan.
  destruct (dates_scan_inv (scan m) [] (JsObj.empty, []) datesInv_start)
    as (_ & Hnd & Hfirst & Hall).
  simpl in *. auto.
Qed.

End DatesTheorems.

(** ** The post-processors *)
Section PostProcessorFacts.
Context `{Env}.

Lemma setTransform_same (d : VgData) : setTransform d (vg_transform d) = d.
Proof. now destruct d. Qed.

Lemma setTransform_twice (d : VgData) (a b : list Transform) :
  setTransform (setTransform d a) b = setTransform d b.
Proof. reflexivity. Qed.

Lemma rankTransform_appends (d : VgData) (m : Model) :
  rankTransform d m = setTransform d (vg_transform d ++ rankTransforms m).
Proof.
  unfold rankTransform, rankTransforms, colorOrdinal.
  destruct (has m COLOR && optTypeIs (fd_type (fieldDef m COLOR)) ORDINAL).
  - reflexivity.
  - now rewrite app_nil_r, setTransform_same.
Qed.

Lemma logFilters_fold (m : Model) (l : list (FieldDef * Channel)) (d : VgData) :
  fold_left
    (fun d e =>
       if isLog (scale m (snd e)) then
         setTransform d
           (push (vg_transform d) (Filter (modelField m (snd e) optDatum ++ " > 0")))
       else d) l d
  = setTransform d
      (vg_transform d ++
       map (logFilter m) (List.filter (fun c => isLog (scale m c)) (map snd l))).
Proof.
  revert d. induction l as [|[fd c] l IH]; intros d; simpl.
  - now rewrite app_nil_r, setTransform_same.
  - rewrite IH. destruct (isLog (scale m c)); [|reflexivity].
    unfold push. simpl. now rewrite <- app_assoc.
Qed.

Lemma filterNonPositiveForLog_appends (d : VgData) (m : Model) :
  filterNonPositiveForLog d m = setTransform d (vg_transform d ++ logFilters m).
Proof.
  unfold filterNonPositiveForLog. rewrite forEach_scan. apply logFilters_fold.
Qed.

Lemma onLast_snoc (f : VgData -> VgData) (earlier : list VgData) (d : VgData) :
  onLast f (earlier ++ [d]) = (earlier ++ [f d])%list.
Proof.
  induction earlier as [|d0 earlier IH]; simpl.
  - reflexivity.
  - rewrite IH. destruct earlier; reflexivity.
Qed.

Lemma postProcess_snoc (m : Model) (earlier : list VgData) (d : VgData) :
  postProcess m (earlier ++ [d]) =
  (earlier ++
   [setTransform d (vg_transform d ++ rankTransforms m ++ logFilters m)])%list.
Proof.
  unfold postProcess. rewrite !onLast_snoc.
  rewrite rankTransform_appends, filterNonPositiveForLog_appends. simpl.
  now rewrite <- app_assoc.
Qed.

Lemma built_trailing (m : Model) : built m = (beforeTrailing m ++ [trailing m])%list.
Proof. unfold built, beforeTrailing, trailing. now destruct (summary.def m). Qed.

(** The list that [compileData] returns: the post-processed running list,
    then the layout, stack and time-domain datasets. *)
Lemma compileData_shape (m : Model) (ds : list VgData) :
  compileData m = Some ds ->
  exists layoutDef,
    layout.def m = Some layoutDef /\
    ds = (postProcess m (built m) ++
          [layoutDef] ++
          match stack m with Some sp => [stack.def m sp] | None => [] end ++
          dates.defs m)%list.
Proof.
  unfold compileData, postProcess, built, bind, ret, push.
  destruct (layout.def m) as [layoutDef|]; [|discriminate].
  intros [= <-]. exists layoutDef. split; [reflexivity|].
  destruct (summary.def m), (stack m); simpl; now rewrite <- ?app_assoc.
Qed.

Lemma logChannels_In (m : Model) (c : Channel) :
  In c (logChannels m) <->
  In c CHANNELS /\ has m c = true /\
  exists s, scale m c = Some s /\ sc_type s = Some "log".
Proof.
  unfold logChannels. rewrite filter_In, in_map_iff. split.
  - intros (([fd c'] & <- & Hin) & Hlog). simpl in *.
    apply scan_In in Hin. destruct Hin as (Hc & Hhas & _).
    unfold isLog in Hlog. destruct (scale m c') as [s|]; [|discriminate].
    apply optStringIs_true in Hlog. eauto.
  - intros (Hc & Hhas & s & Hs & Hty). split.
    + exists (fieldDef m c, c). split; [reflexivity|]. apply scan_In. auto.
    + unfold isLog. rewrite Hs. now apply optStringIs_true.
Qed.

Lemma scan_channels (m : Model) : map snd (scan m) = List.filter (has m) CHANNELS.
Proof.
  unfold scan. induction CHANNELS as [|c l IH]; simpl.
  - reflexivity.
  - rewrite map_app, IH. now destruct (has m c).
Qed.

Lemma logChannels_NoDup (m : Model) : NoDup CHANNELS -> NoDup (logChannels m).
Proof.
  intros Hnd. unfold logChannels. rewrite scan_channels.
  now apply NoDup_filter, NoDup_filter.
Qed.

End PostProcessorFacts.

Section PostProcessorTheorems.
Context `{Env}.

(** C7.  [filterNonPositiveForLog] appends to the dataset it is given one
    filter per present channel whose scale has type [log], in scan order,
    and nothing else; the test of each is the field reference of its
    channel followed by [ > 0].  A channel whose scale is missing or has
    another type adds no filter. *)
Theorem filterNonPositiveForLog_log_channels (dataTable : VgData) (m : Model) :
  filterNonPositiveForLog dataTable m =
    setTransform dataTable
      (vg_transform dataTable ++
       map (fun c => Filter (modelField m c optDatum ++ " > 0")) (logChannels m)) /\
  (forall c, In c (logChannels m) <->
     In c CHANNELS /\ has m c = true /\
     exists s, scale m c = Some s /\ sc_type s = Some "log") /\
  (NoDup CHANNELS -> NoDup (logChannels m)).
Proof.
  split; [apply filterNonPositiveForLog_appends|].
  split; [apply logChannels_In|apply logChannels_NoDup].
Qed.

(** C6.  Run on a list that ends with the dataset [target], each of the two
    post-processors returns the same list with only the transform list of
    its last dataset extended.  After both, the datasets before the last
    are the same, the name, source, values, url and format of the last are
    the same, and its transform list is the one it had, followed by the
    rank transforms and the log filters.  The running list of
    [compileData] ends with the trailing dataset, and the list that
    [compileData] returns starts with the running list after this step. *)
Theorem postProcessors_frame (m : Model) (earlier : list VgData) (target : VgData) :
  onLast (fun d => rankTransform d m) (earlier ++ [target]) =
    (earlier ++
     [setTransform target (vg_transform target ++ rankTransforms m)])%list /\
  onLast (fun d => filterNonPositiveForLog d m) (earlier ++ [target]) =
    (earlier ++
     [setTransform target (vg_transform target ++ logFilters m)])%list /\
  (exists target',
     postProcess m (earlier ++ [target]) = (earlier ++ [target'])%list /\
     vg_name target' = vg_name target /\
     vg_source target' = vg_source target /\
     vg_values target' = vg_values target /\
     vg_url target' = vg_url target /\
     vg_format target' = vg_format target /\
     vg_transform target' =
       (vg_transform target ++ rankTransforms m ++ logFilters m)%list) /\
  built m = (beforeTrailing m ++ [trailing m])%list /\
  forall ds, compileData m = Some ds ->
    exists later, ds = (postProcess m (built m) ++ later)%list.
Proof.
  split; [|split; [|split; [|split]]].
  - now rewrite onLast_snoc, rankTransform_appends.
  - now rewrite onLast_snoc, filterNonPositiveForLog_appends.
  - eexists. split; [apply postProcess_snoc|]. repeat split.
  - apply built_trailing.
  - intros ds Hds. apply compileData_shape in Hds.
    destruct Hds as (layoutDef & _ & ->). eauto.
Qed.

End PostProcessorTheorems.

(** ** Where sort and rank transforms occur *)
Section PlainFacts.
Context `{Env}.

Lemma source_transform_plain (m : Model) :
  Forall (fun t => plain t = true) (source.transform m).
Proof.
  unfold source.transform. repeat (apply Forall_app; split).
  - unfold source.nullFilterTransform.
    destruct (0 <? _)%nat; repeat constructor.
  - rewrite formulaTransform_map. apply Forall_forall. intros t Ht.
    apply in_map_iff in Ht. now destruct Ht as (f & <- & _).
  - unfold source.filterTransform.
    destruct (truthyStr _); repeat constructor.
  - rewrite binTransform_flat_map. apply Forall_flat_map, Forall_forall.
    intros [fd c] _. unfold binSegment, source.binTrans.
    destruct (truthyBin _); [|constructor].
    constructor.
    + now destruct (negb _ && negb _).
    + destruct (_ || _); repeat constructor.
  - rewrite timeTransform_flat_map. apply Forall_flat_map, Forall_forall.
    intros [fd c] _. unfold timeSegment.
    destruct (_ && _); repeat constructor.
Qed.

Lemma summary_def_plain (m : Model) (d : VgData) :
  summary.def m = Some d -> Forall (fun t => plain t = true) (vg_transform d).
Proof.
  unfold summary.def. destruct (summary.hasAggregate _); [|discriminate].
  intros [= <-]. repeat constructor.
Qed.

Lemma trailing_plain (m : Model) :
  Forall (fun t => plain t = true) (vg_transform (trailing m)).
Proof.
  unfold trailing. destruct (summary.def m) as [s|] eqn:Hs.
  - now apply summary_def_plain with (m := m).
  - rewrite source_def_transform. apply source_transform_plain.
Qed.

Lemma logFilters_plain (m : Model) :
  Forall (fun t => plain t = true) (logFilters m).
Proof.
  unfold logFilters. apply Forall_forall. intros t Ht.
  apply in_map_iff in Ht. now destruct Ht as (c & <- & _).
Qed.

(** The transform list of the layout dataset: an aggregate when distinct
    counts are needed, then the four formulas.  Without a facet the width
    and the height are both the cell-width formula. *)
Lemma layout_def_formulas (m : Model) (d : VgData) :
  layout.def m = Some d ->
  exists counts cellWidth cellHeight width height,
    layout.distinctSummary m = Some counts /\
    layout.scaleWidthFormula m X (unit_width (config_unit m)) = Some cellWidth /\
    layout.scaleWidthFormula m Y (unit_height (config_unit m)) = Some cellHeight /\
    vg_transform d =
      ((if (0 <? List.length counts)%nat
        then [Aggregate None (SummarizeList counts)] else []) ++
       [Formula "cellWidth" cellWidth; Formula "cellHeight" cellHeight;
        Formula "width" width; Formula "height" height])%list /\
    (has m COLUMN || has m ROW = false ->
     width = cellWidth /\ height = cellWidth) /\
    (has m COLUMN || has m ROW = true ->
     exists w h,
       layout.facetScaleWidthFormula m COLUMN "datum.cellWidth" = Some w /\
       layout.facetScaleWidthFormula m ROW "datum.cellHeight" = Some h /\
       width = EStr w /\ height = EStr h).
Proof.
  unfold layout.def, bind, ret.
  destruct (layout.distinctSummary m) as [counts|]; [|discriminate].
  destruct (layout.scaleWidthFormula m X _) as [cw|]; [|discriminate].
  destruct (layout.scaleWidthFormula m Y _) as [ch|]; [|discriminate].
  destruct (has m COLUMN || has m ROW).
  - destruct (layout.facetScaleWidthFormula m COLUMN _) as [w|]; [|discriminate].
    destruct (layout.facetScaleWidthFormula m ROW _) as [h|]; [|discriminate].
    intros Hd. exists counts, cw, ch, (EStr w), (EStr h).
    repeat split; try discriminate.
    + destruct (0 <? _)%nat; now injection Hd as <-.
    + intros _. exists w, h. auto.
  - intros Hd. exists counts, cw, ch, cw, cw.
    repeat split; try discriminate.
    destruct (0 <? _)%nat; now injection Hd as <-.
Qed.

Lemma layout_def_plain (m : Model) (d : VgData) :
  layout.def m = Some d -> Forall (fun t => plain t = true) (vg_transform d).
Proof.
  intros Hd. apply layout_def_formulas in Hd.
  destruct Hd as (counts & cw & ch & w & h & _ & _ & _ & -> & _).
  destruct (0 <? _)%nat; repeat constructor.
Qed.

Lemma dates_defs_dateDef (m : Model) (d : VgData) :
  In d (dates.defs m) -> exists timeUnit domain, d = dateDef timeUnit domain.
Proof.
  unfold dates.defs. rewrite reduce_scan.
  destruct (dates_scan_inv (scan m) [] (JsObj.empty, []) datesInv_start)
    as (_ & _ & Hfirst & _).
  intros Hin. destruct (Hfirst d Hin) as (_ & _ & _ & domain & _ & _ & Hd & _).
  eauto.
Qed.

(** Every dataset that follows the running list is free of sort and rank. *)
Lemma later_plain (m : Model) (layoutDef d : VgData) :
  layout.def m = Some layoutDef ->
  In d ([layoutDef] ++
        match stack m with Some sp => [stack.def m sp] | None => [] end ++
        dates.defs m)%list ->
  Forall (fun t => plain t = true) (vg_transform d).
Proof.
  intros Hl [<-|Hin].
  - now apply layout_def_plain with (m := m).
  - simpl in Hin. apply in_app_or in Hin. destruct Hin as [Hin|Hin].
    + destruct (stack m) as [sp|]; [|destruct Hin].
      destruct Hin as [<-|[]]. repeat constructor.
    + apply dates_defs_dateDef in Hin. destruct Hin as (tu & dom & ->).
      repeat constructor.
Qed.

Lemma scaleWidthFormula_total (m : Model) (c : Channel) (n : number) :
  scale m c <> None -> exists e, layout.scaleWidthFormula m c n = Some e.
Proof.
  intros Hs. unfold layout.scaleWidthFormula, layout.cardinalityFormula, bind, ret.
  destruct (scale m c) as [s|]; [|congruence].
  destruct (has m c); [|destruct (_ && _); eauto].
  destruct (isOrdinalScale m c); [|eauto].
  destruct (layout.domainIsArray s); [eauto|].
  destruct (if truthyStr _ then _ else _); eauto.
Qed.

Lemma facetScaleWidthFormula_total (m : Model) (c : Channel) (inner : string) :
  scale m c <> None -> exists e, layout.facetScaleWidthFormula m c inner = Some e.
Proof.
  intros Hs. unfold layout.facetScaleWidthFormula, bind, ret.
  destruct (scale m c) as [s|]; [|congruence].
  destruct (has m c); eauto.
Qed.

Lemma distinctSummary_total (m : Model) (l : list Channel)
  (acc : result (list SummarizeField)) :
  (forall c, In c l -> scale m c <> None) -> acc <> None ->
  fold_left
    (fun acc channel =>
       summary <- acc ;;
       if has m channel && isOrdinalScale m channel then
         scale <- scale m channel ;;
         if negb (layout.domainIsArray scale) then
           ret (push summary
                  {| sum_field := modelField m channel noOpt;
                     sum_ops := ["distinct"] |})
         else ret summary
       else ret summary) l acc <> None.
Proof.
  revert acc. induction l as [|c l IH]; intros acc Hs Hacc; simpl.
  - assumption.
  - apply IH; [intros; apply Hs; now right|].
    destruct acc as [summary|]; [|congruence]. unfold bind, ret.
    destruct (has m c && isOrdinalScale m c); [|discriminate].
    specialize (Hs c (or_introl eq_refl)).
    destruct (scale m c) as [s|]; [|congruence].
    destruct (negb _); discriminate.
Qed.

(** [compileData] returns a list whenever the four layout channels have a
    scale configuration. *)
Lemma compileData_total (m : Model) :
  (forall c, In c [X; Y; ROW; COLUMN] -> scale m c <> None) ->
  exists ds, compileData m = Some ds.
Proof.
  intros Hs.
  assert (exists l, layout.def m = Some l) as (l & Hl).
  { unfold layout.def.
    pose proof (distinctSummary_total m [X; Y; ROW; COLUMN] (ret []) Hs) as Hd.
    fold (layout.distinctSummary m) in Hd.
    destruct (layout.distinctSummary m) as [counts|];
      [|exfalso; apply Hd; [discriminate|reflexivity]].
    destruct (scaleWidthFormula_total m X (unit_width (config_unit m)))
      as (cw & ->); [apply Hs; simpl; auto|].
    destruct (scaleWidthFormula_total m Y (unit_height (config_unit m)))
      as (ch & ->); [apply Hs; simpl; auto|].
    destruct (facetScaleWidthFormula_total m COLUMN "datum.cellWidth")
      as (w & Hw); [apply Hs; simpl; auto 6|].
    destruct (facetScaleWidthFormula_total m ROW "datum.cellHeight")
      as (h & Hh); [apply Hs; simpl; auto|].
    unfold bind, ret. rewrite Hw, Hh.
    destruct (has m COLUMN || has m ROW), (0 <? _)%nat; eauto. }
  unfold compileData, bind, ret. rewrite Hl. eauto.
Qed.

End PlainFacts.

Section RankTheorems.
Context `{Env}.

Lemma plain_not_sort (ts pre post : list Transform) (by_ : string) :
  Forall (fun t => plain t = true) ts -> ts <> (pre ++ Sort by_ :: post)%list.
Proof.
  intros Hall ->. apply Forall_app in Hall. destruct Hall as (_ & Hall).
  inversion Hall as [|? ? Hp _]. discriminate.
Qed.

Lemma beforeTrailing_plain (m : Model) (d : VgData) :
  In d (beforeTrailing m) -> Forall (fun t => plain t = true) (vg_transform d).
Proof.
  unfold beforeTrailing. destruct (summary.def m); [|intros []].
  intros [<-|[]]. rewrite source_def_transform. apply source_transform_plain.
Qed.

(** C2, as amended.  The list that [compileData] returns holds the sort by
    the colour field with the rank transform next to it exactly when the
    colour channel is bound to a field of ordinal type.  The two are
    appended to the trailing dataset, the summary if there is one and else
    the source, after every transform that dataset was built with; the log
    filters, and nothing else, follow them.  No other dataset and no other
    place holds a sort or a rank. *)
Theorem rank_transforms_placement (m : Model) (ds : list VgData) :
  compileData m = Some ds ->
  ((exists d pre post,
      In d ds /\
      vg_transform d =
        (pre ++ Sort (modelField m COLOR noOpt)
             :: Rank (modelField m COLOR noOpt) (modelField m COLOR (optPrefn "rank_"))
             :: post)%list)
   <-> colorOrdinal m = true) /\
  (rankTransforms m =
     if colorOrdinal m then
       [Sort (modelField m COLOR noOpt);
        Rank (modelField m COLOR noOpt) (modelField m COLOR (optPrefn "rank_"))]
     else []) /\
  exists target later,
    ds = (beforeTrailing m ++ [target] ++ later)%list /\
    vg_transform target =
      (vg_transform (trailing m) ++ rankTransforms m ++ logFilters m)%list /\
    Forall (fun t => plain t = true) (vg_transform (trailing m)) /\
    Forall (fun t => isFilter t = true) (logFilters m) /\
    forall d, In d (beforeTrailing m ++ later) ->
              Forall (fun t => plain t = true) (vg_transform d).
Proof.
  intros Hds. apply compileData_shape in Hds.
  destruct Hds as (layoutDef & Hl & ->).
  rewrite built_trailing, postProcess_snoc.
  set (target := setTransform (trailing m) _).
  set (later := ([layoutDef] ++ _)%list).
  assert (Hothers : forall d, In d (beforeTrailing m ++ later) ->
                              Forall (fun t => plain t = true) (vg_transform d)).
  { intros d Hd. apply in_app_or in Hd. destruct Hd as [Hd|Hd].
    - now apply beforeTrailing_plain with (m := m).
    - now apply later_plain with (m := m) (layoutDef := layoutDef). }
  split; [|split; [reflexivity|]].
  - split.
    + intros (d & pre & post & Hd & Ht).
      rewrite <- app_assoc in Hd. apply in_app_or in Hd.
      destruct Hd as [Hd|Hd]; [|apply in_app_or in Hd; destruct Hd as [[<-|[]]|Hd]].
      * exfalso. eapply plain_not_sort; [|exact Ht]. apply Hothers.
        apply in_or_app. now left.
      * destruct (colorOrdinal m) eqn:Hco; [reflexivity|]. exfalso.
        eapply plain_not_sort; [|exact Ht]. simpl.
        unfold rankTransforms. rewrite Hco. simpl.
        apply Forall_app. split; [apply trailing_plain|apply logFilters_plain].
      * exfalso. eapply plain_not_sort; [|exact Ht]. apply Hothers.
        apply in_or_app. now right.
    + intros Hco. exists target, (vg_transform (trailing m)), (logFilters m).
      split.
      * rewrite <- app_assoc. apply in_or_app. right. now left.
      * simpl. unfold rankTransforms. now rewrite Hco.
  - exists target, later. rewrite <- app_assoc.
    repeat split; try assumption.
    + apply trailing_plain.
    + unfold logFilters. apply Forall_forall. intros t Ht.
      apply in_map_iff in Ht. now destruct Ht as (c & <- & _).
Qed.

End RankTheorems.

(** ** The compiler on the sample models *)
Section Examples.
Import Sample.

Example compileData_rankedLog :
  compileData (H := env) rankedLog = Some rankedLogOutput.
Proof. reflexivity. Qed.

Example nullFilter_scatter :
  source.nullFilterTransform (H := env) scatter =
  [Filter "datum.Horsepower!==null && datum.Miles_per_Gallon!==null"].
Proof. reflexivity. Qed.

Example nullFilter_years :
  source.nullFilterTransform (H := env) years =
  [Filter "datum.1990!==null && datum.2000!==null && datum.b!==null"].
Proof. reflexivity. Qed.

Example nullFilter_countByOrigin :
  source.nullFilterTransform (H := env) countByOrigin =
  [Filter "datum.*!==null && datum.Origin!==null"].
Proof. reflexivity. Qed.

Example binTransform_histogram :
  source.binTransform (H := env) histogram =
  [Bin (Some "Horsepower")
     {| out_start := "bin_Horsepower_start"; out_mid := "bin_Horsepower_mid";
        out_end := "bin_Horsepower_end" |} (Some 10%float) None;
   Bin (Some "Acceleration")
     {| out_start := "bin_Acceleration_start"; out_mid := "bin_Acceleration_mid";
        out_end := "bin_Acceleration_end" |} (Some 5%float) None;
   Formula "bin_Acceleration_range"
     (EStr "datum.bin_Acceleration_start + '-' + datum.bin_Acceleration_end")].
Proof. reflexivity. Qed.

Example summary_histogram :
  summary.def (H := env) histogram =
  Some {| vg_name := "summary"; vg_source := Some "source"; vg_values := None;
          vg_format := None; vg_url := None;
          vg_transform :=
            [Aggregate
               (Some ["bin_Horsepower_start"; "bin_Horsepower_mid";
                      "bin_Horsepower_end"; "bin_Acceleration_start";
                      "bin_Acceleration_mid"; "bin_Acceleration_end"])
               (SummarizeMap [("*", ["count"])])] |}.
Proof. reflexivity. Qed.

Example summary_scatter : summary.def (H := env) scatter = None.
Proof. reflexivity. Qed.

Example dates_months :
  map vg_name (dates.defs (H := env) months) = ["month"; "day"].
Proof. reflexivity. Qed.

Example layout_emptyText :
  option_map vg_transform (layout.def (H := env) emptyText) =
  Some [Formula "cellWidth" (ENum 90%float); Formula "cellHeight" (ENum 21%float);
        Formula "width" (ENum 90%float); Formula "height" (ENum 90%float)].
Proof. reflexivity. Qed.

(** C1.  On [bars], a quantitative x over a nominal y without facet, the
    layout dataset ends with the four formulas [cellWidth], [cellHeight],
    [width] and [height] in this order, and its height formula is the
    cell-width formula, 200, where the cell-height formula is the band
    formula of the y channel. *)
Theorem layout_height_is_cellWidth_formula :
  layout.def (H := env) bars =
  Some {| vg_name := "layout"; vg_source := Some "source"; vg_values := None;
          vg_format := None; vg_url := None;
          vg_transform :=
            [Aggregate None
               (SummarizeList
                  [{| sum_field := "Origin"; sum_ops := ["distinct"] |}]);
             Formula "cellWidth" (ENum 200%float);
             Formula "cellHeight" (EStr "(datum.distinct_Origin + 1) * 21");
             Formula "width" (ENum 200%float);
             Formula "height" (ENum 200%float)] |}.
Proof. reflexivity. Qed.

(** On [rankedLog] the rank transform of the source dataset is followed by
    the log filter of the x channel. *)
Lemma rank_followed_by_log_filter : ~ rankClosesDataset (H := env) rankedLog.
Proof.
  intros Hclaim.
  specialize (Hclaim rankedLogOutput (hd (source.def (H := env) rankedLog) rankedLogOutput)
                [Filter "datum.Horsepower!==null"] "Cylinders" "Cylinders"
                "rank_Cylinders" [Filter "datum.Horsepower > 0"]
                eq_refl (or_introl eq_refl) eq_refl).
  discriminate.
Qed.







Lemma rank_transforms_placement_witness :
  compileData (H := env) rankedLog = Some rankedLogOutput /\
  exists target later,
    rankedLogOutput = (beforeTrailing (H := env) rankedLog ++ [target] ++ later)%list /\
    vg_transform target =
      (vg_transform (trailing (H := env) rankedLog) ++
       rankTransforms (H := env) rankedLog ++ logFilters (H := env) rankedLog)%list.
Proof.
  split; [reflexivity|].
  destruct (rank_transforms_placement (H := env) rankedLog rankedLogOutput eq_refl)
    as (_ & _ & target & later & Hds & Ht & _).
  exists target, later. auto.
Defined.

End Examples.

(** ** The parse map of the source dataset *)
Section FormatParseTheorems.
Context `{Env}.

Lemma own_In {V : Type} (k : string) (v : V) (o : JsObj.t V) :
  JsObj.own k o = Some v -> In (k, v) o.
Proof.
  induction o as [|[k0 v0] o IH]; simpl; [discriminate|].
  destruct (String.eqb_spec k k0) as [->|Hne].
  - intros [= ->]. now left.
  - intros Hget. right. now apply IH.
Qed.

Lemma get_Own {V : Type} (k : string) (v : V) (o : JsObj.t V) :
  JsObj.get k o = JsObj.Own v <-> JsObj.own k o = Some v.
Proof.
  unfold JsObj.get. destruct (JsObj.own k o) as [v'|].
  - split; intros [= ->]; reflexivity.
  - destruct (JsObj.inherited k); split; discriminate.
Qed.

Lemma fold_left_pointwise {A B : Type} (f g : A -> B -> A) (l : list B) (a : A) :
  (forall a x, f a x = g a x) -> fold_left f l a = fold_left g l a.
Proof.
  intros Hfg. revert a. induction l as [|x l IH]; intros a; simpl.
  - reflexivity.
  - now rewrite Hfg, IH.
Qed.

Lemma calcFieldMap_get (l : list CalcFormula) (o : JsObj.t bool) (k : string) :
  JsObj.own "__proto__" o = None ->
  JsObj.truthy
    (JsObj.get k
       (fold_left (fun fieldMap formula => JsObj.set (calc_field formula) true fieldMap)
          l o))
  = (JsObj.truthy (JsObj.get k o) || existsb (fun f => calc_field f =? k) l).
Proof.
  revert o. induction l as [|f l IH]; intros o Hproto; simpl.
  - now rewrite orb_false_r.
  - rewrite IH.
    + destruct (String.eqb_spec (calc_field f) k) as [<-|Hne].
      * destruct (String.eqb_spec (calc_field f) "__proto__") as [->|Hkey].
        -- rewrite JsObjFacts.set_proto. unfold JsObj.get. rewrite Hproto.
           reflexivity.
        -- unfold JsObj.get. rewrite JsObjFacts.own_set_same by assumption.
           simpl. now rewrite orb_true_r.
      * unfold JsObj.get. rewrite JsObjFacts.own_set_other by congruence.
        reflexivity.
    + destruct (String.eqb_spec (calc_field f) "__proto__") as [->|Hkey].
      * now rewrite JsObjFacts.set_proto.
      * rewrite JsObjFacts.own_set_other by congruence. assumption.
Qed.

(** The parse map after a list of scanned pairs. *)
Lemma formatParse_scan (m : Model) (l : list (FieldDef * Channel))
  (parse : option (JsObj.t string)) :
  let step := fun (parse : option (JsObj.t string)) (e : FieldDef * Channel) =>
    match parseKind m (fst e) with
    | Some kind =>
        Some (JsObj.set (propertyKey (fd_field (fst e))) kind
                (match parse with Some p => p | None => JsObj.empty end))
    | None => parse
    end in
  let result := fold_left step l parse in
  (result = None <->
   parse = None /\ forall e, In e l -> parseKind m (fst e) = None) /\
  match result with Some p => p | None => JsObj.empty end =
    fold_left
      (fun o e =>
         if match parseKind m (fst e) with Some _ => true | None => false end
         then JsObj.set (propertyKey (fd_field (fst e)))
                (match parseKind m (fst e) with Some kind => kind | None => "" end) o
         else o)
      l (match parse with Some p => p | None => JsObj.empty end).
Proof.
  intros step result. subst result. revert parse.
  induction l as [|e l IH]; intros parse; simpl.
  - split; [|reflexivity]. split.
    + intros ->. split; [reflexivity|]. intros e [].
    + now intros (-> & _).
  - destruct (IH (step parse e)) as (IHnone & IHobj). rewrite IHnone, IHobj.
    unfold step. destruct (parseKind m (fst e)) as [kind|] eqn:Hkind.
    + split; [|reflexivity]. split.
      * intros (Hn & _). discriminate.
      * intros (_ & Hall). specialize (Hall e (or_introl eq_refl)). congruence.
    + split; [|reflexivity]. split.
      * intros (-> & Hall). split; [reflexivity|].
        intros e' [<-|Hin]; auto.
      * intros (-> & Hall). split; [reflexivity|]. intros; apply Hall; now right.
Qed.

Lemma formatParse_fold (m : Model) :
  source.formatParse m =
  fold_left
    (fun (parse : option (JsObj.t string)) (e : FieldDef * Channel) =>
       match parseKind m (fst e) with
       | Some kind =>
           Some (JsObj.set (propertyKey (fd_field (fst e))) kind
                   (match parse with Some p => p | None => JsObj.empty end))
       | None => parse
       end)
    (scan m) None.
Proof.
  unfold source.formatParse. rewrite forEach_scan.
  apply fold_left_pointwise. intros parse [fd c]. simpl.
  unfold parseKind, calculated. rewrite calcFieldMap_get by reflexivity.
  unfold JsObj.get at 1. simpl. rewrite (orb_comm (JsObj.truthy _)).
  replace (JsObj.truthy
             (if JsObj.inherited (propertyKey (fd_field fd))
              then JsObj.Inherited else JsObj.Undefined))
    with (JsObj.inherited (propertyKey (fd_field fd)))
    by now destruct (JsObj.inherited _).
  destruct (optTypeIs (fd_type fd) TEMPORAL); [reflexivity|].
  destruct (optTypeIs (fd_type fd) QUANTITATIVE); [|reflexivity].
  now destruct (isCount fd || _).
Qed.

(** X1.  [formatParse] returns no map exactly when no present channel has a
    field to parse.  When it returns one, its keys are the distinct fields,
    other than [__proto__], of the present channels that are temporal, or
    quantitative and neither a count nor read as the output of a
    calculation; each key is mapped to the parse kind, [date] or [number],
    of a present channel with that field.  The source dataset carries this
    map as the [parse] of its format. *)
Theorem formatParse_fields (m : Model) :
  (source.formatParse m = None <->
   forall fd c, In (fd, c) (scan m) -> parseKind m fd = None) /\
  (forall parse, source.formatParse m = Some parse ->
     NoDup (JsObj.keys parse) /\
     (forall k, In k (JsObj.keys parse) <->
        (exists fd c, In (fd, c) (scan m) /\ fd_field fd = Some k /\
                      parseKind m fd <> None) /\
        k <> "__proto__") /\
     (forall k v, JsObj.get k parse = JsObj.Own v ->
        (v = "date" \/ v = "number") /\
        exists fd c, In (fd, c) (scan m) /\ fd_field fd = Some k /\
                     parseKind m fd = Some v)) /\
  (exists f, vg_format (source.def m) = Some f /\
             format_parse f = source.formatParse m).
Proof.
  rewrite formatParse_fold.
  destruct (formatParse_scan m (scan m) None) as (Hnone & Hobj).
  simpl in Hnone, Hobj.
  set (result := fold_left _ (scan m) None) in *.
  split; [|split].
  - rewrite Hnone. split.
    + intros (_ & Hall) fd c Hin. apply (Hall (fd, c) Hin).
    + intros Hall. split; [reflexivity|]. intros [fd c] Hin.
      now apply Hall with (c := c).
  - intros parse Hparse. rewrite Hparse in Hobj.
    destruct (JsObjFacts.fold_set_keys
                (fun e : FieldDef * Channel =>
                   match parseKind m (fst e) with Some _ => true | None => false end)
                (fun e => propertyKey (fd_field (fst e)))
                (fun e => match parseKind m (fst e) with Some kind => kind | None => "" end)
                (scan m) (@JsObj.empty string)) as (Hnd & Hin & Hval).
    simpl in Hnd, Hin, Hval. rewrite <- Hobj in Hnd, Hin, Hval.
    split; [|split].
    + apply JsObjFacts.keys_NoDup, Hnd. constructor.
    + intros k. rewrite JsObjFacts.keys_In, Hin. split.
      * intros [[]|([fd c] & He & Hp & Hk & Hproto)]. simpl in *.
        destruct (scan_field _ _ _ He) as (n & Hn & _).
        rewrite Hn in Hk. simpl in Hk. subst n.
        split; [|assumption]. exists fd, c. repeat split; auto.
        destruct (parseKind m fd); [discriminate|discriminate].
      * intros ((fd & c & He & Hf & Hp) & Hproto). right. exists (fd, c). simpl.
        rewrite Hf. repeat split; auto.
        destruct (parseKind m fd); [reflexivity|contradiction].
    + intros k v Hget. apply get_Own, own_In in Hget.
      destruct (Hval _ Hget) as [[]|([fd c] & He & Hp & Hkv)]. simpl in *.
      injection Hkv as Hk Hv.
      destruct (scan_field _ _ _ He) as (n & Hn & _).
      rewrite Hn in Hk. simpl in Hk. subst n.
      destruct (parseKind m fd) as [kind|] eqn:Hkind; [|discriminate].
      subst v. split.
      * unfold parseKind in Hkind.
        destruct (optTypeIs (fd_type fd) TEMPORAL); [injection Hkind as <-; auto|].
        destruct (optTypeIs (fd_type fd) QUANTITATIVE); [|discriminate].
        destruct (isCount fd || _); [discriminate|injection Hkind as <-; auto].
      * exists fd, c. auto.
  - subst result. rewrite <- formatParse_fold. unfold source.def.
    destruct (hasValues m), (source.formatParse m); simpl; eexists;
      split; reflexivity.
Qed.

End FormatParseTheorems.

(** ** More on the stages of the source dataset *)
Section MoreSourceTheorems.
Context `{Env}.

Lemma optTypeIs_true (t : option VlType) (ty : VlType) :
  optTypeIs t ty = true <-> t = Some ty.
Proof.
  destruct t as [[]|], ty; simpl; split; congruence.
Qed.

Lemma dates_defs_covers (m : Model) (e : FieldDef * Channel)
  (timeUnit : string) (domain : list number) :
  In e (scan m) -> hasDomain e timeUnit domain ->
  In timeUnit (map vg_name (dates.defs m)).
Proof.
  unfold dates.defs. rewrite reduce_scan.
  destruct (dates_scan_inv (scan m) [] (JsObj.empty, []) datesInv_start)
    as (_ & _ & _ & Hall).
  simpl in Hall. apply Hall.
Qed.

(** X2.  The time-unit stage is the concatenation, in scan order, of one
    segment per present channel: the formula that rewrites the field
    reference with the time-unit expression over the raw field when the
    field is temporal and has a time unit, and nothing otherwise. *)
Theorem timeTransform_segments (m : Model) :
  source.timeTransform m = flat_map timeSegment (scan m) /\
  forall fd c,
    (forall timeUnit,
       fd_type fd = Some TEMPORAL -> fd_timeUnit fd = Some timeUnit ->
       timeUnit <> "" ->
       timeSegment (fd, c) =
         [Formula (field fd noOpt)
            (EStr (parseExpression timeUnit (field fd optNofnDatum) false))]) /\
    (fd_type fd <> Some TEMPORAL \/ truthyStr (fd_timeUnit fd) = false ->
     timeSegment (fd, c) = []).
Proof.
  split; [apply timeTransform_flat_map|].
  intros fd c. unfold timeSegment. split.
  - intros timeUnit Hty Htu Hne. rewrite Hty, Htu. simpl.
    destruct (String.eqb_spec timeUnit ""); [contradiction|reflexivity].
  - intros [Hty|Htu].
    + destruct (optTypeIs (fd_type fd) TEMPORAL) eqn:Ht; [|reflexivity].
      apply optTypeIs_true in Ht. contradiction.
    + rewrite Htu. now rewrite andb_false_r.
Qed.

(** X3.  The formula stage holds one formula per calculation of the
    transform configuration, in declaration order, with the field and the
    expression of the calculation; it is empty when no calculation is
    declared. *)
Theorem formulaTransform_in_order (m : Model) :
  source.formulaTransform m =
    map (fun f => Formula (calc_field f) (EStr (calc_expr f)))
      (match tr_calculate (transform m) with Some l => l | None => [] end) /\
  List.length (source.formulaTransform m) =
    List.length (match tr_calculate (transform m) with Some l => l | None => [] end).
Proof.
  rewrite formulaTransform_map. split; [reflexivity|apply length_map].
Qed.

Lemma count_filters_app (a b : list Transform) :
  List.length (List.filter isFilter (a ++ b)) =
  List.length (List.filter isFilter a) + List.length (List.filter isFilter b).
Proof. now rewrite filter_app, length_app. Qed.

Lemma no_filters (l : list Transform) :
  Forall (fun t => isFilter t = false) l -> List.filter isFilter l = [].
Proof.
  induction 1 as [|t l Ht _ IH]; simpl; [reflexivity|]. now rewrite Ht.
Qed.

Lemma binTransform_kinds (m : Model) :
  Forall (fun t => isFilter t = false /\ (isBin t || isFormula t = true))
    (source.binTransform m).
Proof.
  rewrite binTransform_flat_map. apply Forall_flat_map, Forall_forall.
  intros [fd c] _. unfold binSegment, source.binTrans.
  destruct (truthyBin _); [|constructor].
  constructor.
  - now destruct (negb _ && negb _).
  - destruct (_ || _); repeat constructor.
Qed.

Lemma timeTransform_kinds (m : Model) :
  Forall (fun t => isFormula t = true) (source.timeTransform m).
Proof.
  rewrite timeTransform_flat_map. apply Forall_flat_map, Forall_forall.
  intros [fd c] _. unfold timeSegment. destruct (_ && _); repeat constructor.
Qed.

Lemma formulaTransform_kinds (m : Model) :
  Forall (fun t => isFormula t = true) (source.formulaTransform m).
Proof.
  rewrite formulaTransform_map. apply Forall_forall. intros t Ht.
  apply in_map_iff in Ht. now destruct Ht as (f & <- & _).
Qed.

(** X4.  The source dataset holds only filter, formula and bin transforms,
    never an aggregate, a sort or a rank, and at most two filters: the null
    filter and the filter of the transform configuration. *)
Theorem source_transform_kinds (m : Model) :
  Forall (fun t => isFilter t || isFormula t || isBin t = true)
    (vg_transform (source.def m)) /\
  List.length (List.filter isFilter (vg_transform (source.def m))) <= 2.
Proof.
  rewrite source_def_transform. unfold source.transform. split.
  - repeat (apply Forall_app; split).
    + unfold source.nullFilterTransform. destruct (0 <? _)%nat; repeat constructor.
    + eapply Forall_impl; [|apply formulaTransform_kinds].
      intros t Ht. simpl in Ht. rewrite Ht. now rewrite orb_true_r.
    + unfold source.filterTransform. destruct (truthyStr _); repeat constructor.
    + eapply Forall_impl; [|apply binTransform_kinds].
      intros t (_ & Ht). simpl. destruct (isFilter t), (isFormula t), (isBin t);
        simpl in *; congruence.
    + eapply Forall_impl; [|apply timeTransform_kinds].
      intros t Ht. simpl in Ht. rewrite Ht. now rewrite orb_true_r.
  - rewrite !count_filters_app.
    assert (List.length (List.filter isFilter (source.nullFilterTransform m)) <= 1)
      by (unfold source.nullFilterTransform; destruct (0 <? _)%nat; simpl; lia).
    assert (List.length (List.filter isFilter (source.filterTransform m)) <= 1)
      by (unfold source.filterTransform; destruct (truthyStr _); simpl; lia).
    rewrite (no_filters (source.formulaTransform m)),
            (no_filters (source.binTransform m)),
            (no_filters (source.timeTransform m)).
    + simpl. lia.
    + eapply Forall_impl; [|apply timeTransform_kinds].
      intros t Ht. simpl in Ht. now destruct t.
    + eapply Forall_impl; [|apply binTransform_kinds]. now intros t (Ht & _).
    + eapply Forall_impl; [|apply formulaTransform_kinds].
      intros t Ht. simpl in Ht. now destruct t.
Qed.

(** X5.  A present channel whose field carries a time unit with a raw
    domain but is not typed temporal gets its time-domain dataset from
    [dates.defs], while the time-unit stage of the source dataset has no
    formula for it. *)
Theorem timeUnit_without_temporal (m : Model) (e : FieldDef * Channel)
  (timeUnit : string) (domain : list number) :
  In e (scan m) -> hasDomain e timeUnit domain ->
  fd_type (fst e) <> Some TEMPORAL ->
  timeSegment e = [] /\ In timeUnit (map vg_name (dates.defs m)).
Proof.
  intros Hin Hdom Hty. split.
  - destruct e as [fd c]. unfold timeSegment. simpl in Hty.
    destruct (optTypeIs (fd_type fd) TEMPORAL) eqn:Ht; [|reflexivity].
    apply optTypeIs_true in Ht. contradiction.
  - eapply dates_defs_covers; eassumption.
Qed.

End MoreSourceTheorems.

(** ** The layout dataset *)
Section LayoutFacts.
Context `{Env}.

Lemma distinctSummary_fold (m : Model) (l : list Channel)
  (acc : list SummarizeField) :
  fold_left
    (fun acc channel =>
       summary <- acc ;;
       if has m channel && isOrdinalScale m channel then
         scale <- scale m channel ;;
         if negb (layout.domainIsArray scale) then
           ret (push summary
                  {| sum_field := modelField m channel noOpt;
                     sum_ops := ["distinct"] |})
         else ret summary
       else ret summary) l (Some acc)
  = if existsb
         (fun c => has m c && isOrdinalScale m c &&
                   match scale m c with None => true | Some _ => false end) l
    then None
    else Some (acc ++ map (distinctRequest m) (List.filter (needsDistinct m) l))%list.
Proof.
  revert acc. induction l as [|c l IH]; intros acc; simpl.
  - now rewrite app_nil_r.
  - unfold needsDistinct at 1. unfold bind at 2, ret.
    destruct (has m c && isOrdinalScale m c); simpl.
    + destruct (scale m c) as [s|]; simpl.
      * destruct (layout.domainIsArray s); simpl.
        -- apply IH.
        -- rewrite IH. unfold push, distinctRequest.
           destruct (existsb _ l); [reflexivity|]. now rewrite <- app_assoc.
      * clear IH. induction l as [|c' l IHl]; simpl; [reflexivity|exact IHl].
    + apply IH.
Qed.

Lemma distinctSummary_result (m : Model) :
  layout.distinctSummary m =
  if existsb
       (fun c => has m c && isOrdinalScale m c &&
                 match scale m c with None => true | Some _ => false end)
       [X; Y; ROW; COLUMN]
  then None else Some (distinctRequests m).
Proof.
  unfold layout.distinctSummary, ret. now rewrite distinctSummary_fold.
Qed.

Lemma ordinalWithoutScale_existsb (m : Model) (l : list Channel) :
  existsb
    (fun c => has m c && isOrdinalScale m c &&
              match scale m c with None => true | Some _ => false end) l = true
  <-> exists c, In c l /\ ordinalWithoutScale m c.
Proof.
  rewrite existsb_exists. unfold ordinalWithoutScale.
  split; intros (c & Hc & Hp); exists c; (split; [assumption|]).
  - apply andb_prop in Hp. destruct Hp as (Hp & Hs).
    apply andb_prop in Hp. destruct Hp as (Hh & Ho).
    destruct (scale m c); [discriminate|auto].
  - destruct Hp as (-> & -> & ->). reflexivity.
Qed.

Lemma scaleWidthFormula_None (m : Model) (c : Channel) (n : number) :
  layout.scaleWidthFormula m c n = None <-> ordinalWithoutScale m c.
Proof.
  unfold layout.scaleWidthFormula, layout.cardinalityFormula, bind, ret,
    ordinalWithoutScale.
  destruct (has m c).
  - destruct (isOrdinalScale m c).
    + destruct (scale m c) as [s|].
      * split; [|intros (_ & _ & Hs); discriminate].
        destruct (layout.domainIsArray s); [discriminate|].
        destruct (if truthyStr _ then _ else _); discriminate.
      * split; auto.
    + split; [discriminate|]. intros (_ & Ho & _). discriminate.
  - split; [|intros (Hh & _); discriminate].
    destruct (_ && _); discriminate.
Qed.

Lemma facetScaleWidthFormula_None (m : Model) (c : Channel) (inner : string) :
  layout.facetScaleWidthFormula m c inner = None <-> scale m c = None.
Proof.
  unfold layout.facetScaleWidthFormula, bind, ret.
  destruct (scale m c) as [s|]; [|split; reflexivity].
  destruct (has m c); split; discriminate.
Qed.

Lemma layout_def_None (m : Model) :
  layout.def m = None <->
  (exists c, In c [X; Y; ROW; COLUMN] /\ ordinalWithoutScale m c) \/
  (has m COLUMN || has m ROW = true /\
   (scale m COLUMN = None \/ scale m ROW = None)).
Proof.
  rewrite <- ordinalWithoutScale_existsb.
  unfold layout.def. rewrite distinctSummary_result.
  destruct (existsb _ [X; Y; ROW; COLUMN]) eqn:Hex; simpl.
  - split; auto.
  - assert (Hx : ~ ordinalWithoutScale m X).
    { intros Hx. apply Bool.not_true_iff_false in Hex. apply Hex.
      apply ordinalWithoutScale_existsb. exists X. simpl. auto. }
    assert (Hy : ~ ordinalWithoutScale m Y).
    { intros Hy. apply Bool.not_true_iff_false in Hex. apply Hex.
      apply ordinalWithoutScale_existsb. exists Y. simpl. auto. }
    rewrite <- (scaleWidthFormula_None m X (unit_width (config_unit m))) in Hx.
    rewrite <- (scaleWidthFormula_None m Y (unit_height (config_unit m))) in Hy.
    destruct (layout.scaleWidthFormula m X _) as [cw|]; [|contradiction].
    destruct (layout.scaleWidthFormula m Y _) as [ch|]; [|contradiction].
    unfold bind, ret.
    rewrite <- (facetScaleWidthFormula_None m COLUMN "datum.cellWidth").
    rewrite <- (facetScaleWidthFormula_None m ROW "datum.cellHeight").
    destruct (has m COLUMN || has m ROW).
    + destruct (layout.facetScaleWidthFormula m COLUMN _) as [w|].
      * destruct (layout.facetScaleWidthFormula m ROW _) as [h|].
        -- destruct (0 <? _)%nat; split; try discriminate;
             intros [Hf|(_ & [Hf|Hf])]; discriminate.
        -- split; auto.
      * split; auto.
    + destruct (0 <? _)%nat; split; try discriminate;
        intros [Hf|(Hf & _)]; discriminate.
Qed.

End LayoutFacts.

Section LayoutTheorems.
Context `{Env}.

Lemma needsDistinct_request (m : Model) (c : Channel) :
  In c [X; Y; ROW; COLUMN] -> needsDistinct m c = true ->
  In (distinctRequest m c) (distinctRequests m).
Proof.
  intros Hc Hn. unfold distinctRequests. apply in_map, filter_In. auto.
Qed.

(** X6.  [layout.def] throws exactly when it has to read a scale
    configuration that is missing: that of a present channel among x, y,
    row and column whose scale is ordinal, or, as soon as row or column is
    present, that of row or of column, bound or not.  [compileData] throws
    exactly when [layout.def] does. *)
Theorem layout_def_throws (m : Model) :
  (layout.def m = None <->
   (exists c, In c [X; Y; ROW; COLUMN] /\ ordinalWithoutScale m c) \/
   (has m COLUMN || has m ROW = true /\
    (scale m COLUMN = None \/ scale m ROW = None))) /\
  (compileData m = None <-> layout.def m = None).
Proof.
  split; [apply layout_def_None|].
  unfold compileData, bind, ret. destruct (layout.def m); split;
    try discriminate; reflexivity.
Qed.

(** X7.  The layout dataset is named [LAYOUT] and ends with four formulas.
    When no distinct count is asked for, it has no source and starts from
    one placeholder row; else it reads the model's data table and its first
    transform is the aggregate of the distinct counts, one per present
    channel among x, y, row and column with an ordinal scale and no
    explicit domain array, in this order. *)
Theorem layout_def_requests (m : Model) (d : VgData) :
  layout.def m = Some d ->
  vg_name d = LAYOUT /\ vg_format d = None /\ vg_url d = None /\
  exists formulas,
    List.length formulas = 4 /\
    Forall (fun t => isFormula t = true) formulas /\
    match distinctRequests m with
    | [] =>
        vg_source d = None /\ vg_values d = Some (JArr [JObj []]) /\
        vg_transform d = formulas
    | _ :: _ =>
        vg_source d = Some (dataTable m) /\ vg_values d = None /\
        vg_transform d =
          Aggregate None (SummarizeList (distinctRequests m)) :: formulas
    end.
Proof.
  unfold layout.def. rewrite distinctSummary_result.
  destruct (existsb _ [X; Y; ROW; COLUMN]); [discriminate|]. simpl.
  unfold bind, ret.
  destruct (layout.scaleWidthFormula m X _) as [cw|]; [|discriminate].
  destruct (layout.scaleWidthFormula m Y _) as [ch|]; [|discriminate].
  destruct (has m COLUMN || has m ROW).
  - destruct (layout.facetScaleWidthFormula m COLUMN _) as [w|]; [|discriminate].
    destruct (layout.facetScaleWidthFormula m ROW _) as [h|]; [|discriminate].
    destruct (distinctRequests m) as [|r rs]; simpl; intros [= <-]; simpl;
      repeat split; eexists; repeat split; repeat constructor.
  - destruct (distinctRequests m) as [|r rs]; simpl; intros [= <-]; simpl;
      repeat split; eexists; repeat split; repeat constructor.
Qed.

(** X8.  When none of x, y, row and column is present, [layout.def] returns
    the placeholder dataset whose cell width is 90 for a text mark and 21
    for any other mark, whose cell height is 21, and whose width and height
    are both the cell width. *)
Theorem layout_def_unbound (m : Model) :
  (forall c, In c [X; Y; ROW; COLUMN] -> has m c = false) ->
  let cellWidth := if Mark_eqb (mark m) TEXT_MARK then 90%float else 21%float in
  layout.def m =
  Some {| vg_name := LAYOUT; vg_source := None;
          vg_values := Some (JArr [JObj []]); vg_format := None;
          vg_url := None;
          vg_transform :=
            [Formula "cellWidth" (ENum cellWidth);
             Formula "cellHeight" (ENum 21%float);
             Formula "width" (ENum cellWidth);
             Formula "height" (ENum cellWidth)] |}.
Proof.
  intros Hno.
  assert (Hx : has m X = false) by (apply Hno; simpl; auto).
  assert (Hy : has m Y = false) by (apply Hno; simpl; auto).
  assert (Hr : has m ROW = false) by (apply Hno; simpl; auto).
  assert (Hc : has m COLUMN = false) by (apply Hno; simpl; auto 6).
  unfold layout.def, layout.distinctSummary, layout.scaleWidthFormula, bind, ret.
  simpl. rewrite Hx, Hy, Hr, Hc. simpl.
  rewrite andb_true_r, andb_false_r. now destruct (Mark_eqb (mark m) TEXT_MARK).
Qed.

(** X9.  What [scaleWidthFormula] returns for one of x, y, row and column.
    A number is the given size of a present channel whose scale is not
    ordinal, or the default of an absent one: 90 for x under a text mark,
    else 21.  A string is the band formula of a present channel with an
    ordinal scale, over the length of its explicit domain array, or else
    over the length of the raw domain of its time unit or the reference to
    its distinct count; in both of the latter cases the distinct count of
    the channel is among those the layout asks for. *)
Theorem scaleWidthFormula_cases (m : Model) (c : Channel) (n : number) (e : Expr) :
  In c [X; Y; ROW; COLUMN] ->
  layout.scaleWidthFormula m c n = Some e ->
  match e with
  | ENum k =>
      (has m c = true /\ isOrdinalScale m c = false /\ k = n) \/
      (has m c = false /\
       k = if Mark_eqb (mark m) TEXT_MARK && Channel_eqb c X then 90%float else 21%float)
  | EStr f =>
      exists s card,
        scale m c = Some s /\ has m c = true /\ isOrdinalScale m c = true /\
        f = "(" ++ card ++ " + " ++ optNumToString (sc_padding s) ++
            ") * " ++ optNumToString (sc_bandWidth s) /\
        ((exists xs, sc_domain s = Some (DomainArray xs) /\
                     card = numToString (lengthNumber (List.length xs))) \/
         (In (distinctRequest m c) (distinctRequests m) /\
          ((exists timeUnit domain,
              fd_timeUnit (fieldDef m c) = Some timeUnit /\
              rawDomain timeUnit c = Some domain /\
              card = numToString (lengthNumber (List.length domain))) \/
           card = modelField m c (optDatumPrefn "distinct_"))))
  end.
Proof.
  intros Hc. unfold layout.scaleWidthFormula, layout.cardinalityFormula, bind, ret.
  destruct (has m c) eqn:Hhas.
  - destruct (isOrdinalScale m c) eqn:Hord.
    + destruct (scale m c) as [s|] eqn:Hs; [|discriminate].
      destruct (layout.domainIsArray s) eqn:Harr.
      * intros [= <-]. exists s, (numToString (layout.domainLength s)).
        repeat split. left.
        unfold layout.domainIsArray, layout.domainLength in *.
        destruct (sc_domain s) as [[xs|j]|]; try discriminate. eauto.
      * assert (Hreq : In (distinctRequest m c) (distinctRequests m)).
        { apply needsDistinct_request; [assumption|].
          unfold needsDistinct. now rewrite Hhas, Hord, Hs, Harr. }
        destruct (truthyStr (fd_timeUnit (fieldDef m c))) eqn:Htu.
        -- apply truthyStr_Some in Htu. destruct Htu as (tu & Htu & _).
           rewrite Htu. simpl.
           destruct (rawDomain tu c) as [dom|] eqn:Hraw; intros [= <-];
             eexists s, _; repeat split; right; (split; [exact Hreq|]).
           ++ left. eauto.
           ++ now right.
        -- intros [= <-]. eexists s, _. repeat split. right.
           split; [exact Hreq|]. now right.
    + intros [= <-]. left. auto.
  - destruct (Mark_eqb (mark m) TEXT_MARK && Channel_eqb c X);
      intros [= <-]; right; auto.
Qed.

(** X10.  What [facetScaleWidthFormula] returns.  For an absent channel it
    is the inner size plus the padding of the channel's scale; for a
    present one it is that sum times the length of the explicit domain
    array, or else times the reference to the distinct count of the
    channel, which the layout asks for when the channel is row or column
    and its scale is ordinal. *)
Theorem facetScaleWidthFormula_cases (m : Model) (c : Channel)
  (inner f : string) :
  layout.facetScaleWidthFormula m c inner = Some f ->
  exists s,
    scale m c = Some s /\
    ((has m c = false /\
      f = inner ++ " + " ++ optNumToString (sc_padding s)) \/
     (has m c = true /\
      exists card,
        f = "(" ++ inner ++ " + " ++ optNumToString (sc_padding s) ++ ")" ++
            " * " ++ card /\
        ((exists xs, sc_domain s = Some (DomainArray xs) /\
                     card = numToString (lengthNumber (List.length xs))) \/
         (layout.domainIsArray s = false /\
          card = modelField m c (optDatumPrefn "distinct_") /\
          (In c [ROW; COLUMN] -> isOrdinalScale m c = true ->
           In (distinctRequest m c) (distinctRequests m)))))).
Proof.
  unfold layout.facetScaleWidthFormula, bind, ret.
  destruct (scale m c) as [s|] eqn:Hs; [|discriminate].
  destruct (has m c) eqn:Hhas; intros [= <-]; exists s; (split; [reflexivity|]).
  - right. split; [reflexivity|].
    destruct (layout.domainIsArray s) eqn:Harr; eexists; (split; [reflexivity|]).
    + left. unfold layout.domainIsArray, layout.domainLength in *.
      destruct (sc_domain s) as [[xs|j]|]; try discriminate. eauto.
    + right. repeat split. intros Hc Hord.
      apply needsDistinct_request.
      * simpl in *. intuition.
      * unfold needsDistinct. now rewrite Hhas, Hord, Hs, Harr.
  - left. auto.
Qed.

End LayoutTheorems.

(** ** The measures of the summary dataset *)
Section MeasureFacts.
Context `{Env}.

Lemma define_In_inv {V : Type} (k k' : string) (v v' : V) (o : JsObj.t V) :
  NoDup (map fst o) -> In (k', v') (JsObj.define k v o) ->
  (k' = k /\ v' = v) \/ (k' <> k /\ In (k', v') o).
Proof.
  induction o as [|[k0 v0] o IH]; simpl; intros Hnd.
  - intros [[= <- <-]|[]]. now left.
  - inversion Hnd as [|? ? Hnotin Hnd']; subst.
    destruct (String.eqb_spec k k0) as [->|Hne]; simpl.
    + intros [[= <- <-]|Hin]; [now left|]. right. split; [|now right].
      intros ->. apply Hnotin. now apply (in_map fst) in Hin.
    + intros [[= <- <-]|Hin].
      * right. split; [congruence|now left].
      * destruct (IH Hnd' Hin) as [Heq|(Hk & Hin')]; [now left|].
        right. split; [assumption|now right].
Qed.

Lemma define_fresh {V : Type} (k : string) (v : V) (o : JsObj.t V) :
  ~ In k (map fst o) -> JsObj.define k v o = (o ++ [(k, v)])%list.
Proof.
  induction o as [|[k0 v0] o IH]; simpl; intros Hn; [reflexivity|].
  destruct (String.eqb_spec k k0) as [->|Hne]; [exfalso; auto|].
  rewrite IH; auto.
Qed.

(** Rebuilding an object key by key keeps its keys and maps its values. *)
Lemma rebuild_entries {V W : Type} (g : V -> W) (l : list (string * V))
  (acc : JsObj.t W) :
  NoDup (map fst acc ++ map fst l) -> ~ In "__proto__" (map fst l) ->
  fold_left (fun acc e => JsObj.set (fst e) (g (snd e)) acc) l acc
  = (acc ++ map (fun e => (fst e, g (snd e))) l)%list.
Proof.
  revert acc. induction l as [|[k v] l IH]; intros acc Hnd Hproto; simpl.
  - now rewrite app_nil_r.
  - simpl in Hnd, Hproto.
    rewrite JsObjFacts.set_define by (intros ->; apply Hproto; now left).
    rewrite define_fresh.
    + rewrite IH; [now rewrite <- app_assoc| |].
      * rewrite map_app. simpl. now rewrite <- app_assoc.
      * intros Hin. apply Hproto. now right.
    + apply NoDup_remove_2 in Hnd. intros Hin. apply Hnd.
      apply in_or_app. now left.
Qed.

Lemma visit_meas (m : Model) (fd : FieldDef) (c : Channel) (s : summary.State) :
  summary.meas (summary.visit m fd c s) =
  if truthyStr (fd_aggregate fd) then
    JsObj.set (measureKey fd)
      (JsObj.set (propertyKey (fd_aggregate fd)) true
         (summary.getOrEmpty (measureKey fd) (summary.meas s)))
      (summary.meas s)
  else summary.meas s.
Proof.
  unfold summary.visit, measureKey.
  destruct (truthyStr (fd_aggregate fd)).
  - destruct (optStringIs (fd_aggregate fd) "count") eqn:Hcount; simpl.
    + apply optStringIs_true in Hcount. now rewrite Hcount.
    + reflexivity.
  - destruct (truthyBin (fd_bin fd)); reflexivity.
Qed.

Lemma measInv_step (m : Model) (seen : list (FieldDef * Channel))
  (e : FieldDef * Channel) (s : summary.State) :
  (truthyStr (fd_aggregate (fst e)) = true ->
   JsObj.inherited (measureKey (fst e)) = false) ->
  measInv seen (summary.meas s) ->
  measInv (seen ++ [e]) (summary.meas (summary.visit m (fst e) (snd e) s)).
Proof.
  destruct e as [fd c]. simpl. intros Hown. rewrite visit_meas.
  intros (Hnd & Hinner & Hkeys).
  destruct (truthyStr (fd_aggregate fd)) eqn:Hagg.
  - specialize (Hown eq_refl).
    apply truthyStr_Some in Hagg. destruct Hagg as (op & Hop & Hne).
    assert (Hagg : truthyStr (fd_aggregate fd) = true)
      by (apply truthyStr_Some; eauto).
    assert (Hhere : In (fd, c) (seen ++ [(fd, c)]))
      by (apply in_or_app; right; now left).
    rewrite Hop. simpl.
    remember (measureKey fd) as k eqn:Hk.
    assert (Hproto : k <> "__proto__")
      by (intros Heq; rewrite Heq in Hown; discriminate Hown).
    remember (summary.getOrEmpty k (summary.meas s)) as inner0 eqn:Hinner0.
    assert (Hstart :
      NoDup (map fst inner0) /\
      forall op', In op' (map fst inner0) <->
        (exists e, In e seen /\ truthyStr (fd_aggregate (fst e)) = true /\
                   measureKey (fst e) = k /\ fd_aggregate (fst e) = Some op') /\
        op' <> "__proto__").
    { subst inner0. unfold summary.getOrEmpty, JsObj.get.
      destruct (JsObj.own k (summary.meas s)) as [inner|] eqn:Hget.
      - apply own_In in Hget. now apply Hinner.
      - rewrite Hown. split; [constructor|]. intros op'. split; [intros []|].
        intros ((e & He & Ht & Hke & _) & _).
        apply JsObjFacts.own_None_not_In in Hget. exfalso. apply Hget.
        apply Hkeys. eauto. }
    destruct Hstart as (Hnd0 & Hops0).
    rewrite (JsObjFacts.set_define k) by assumption.
    split; [|split].
    + now apply JsObjFacts.define_keys_NoDup.
    + intros k' inner Hin. apply define_In_inv in Hin; [|assumption].
      destruct Hin as [(-> & ->)|(Hne' & Hin)].
      * split; [now apply JsObjFacts.set_keys_NoDup|].
        intros op'. rewrite JsObjFacts.set_keys_In, Hops0. split.
        -- intros [(-> & Hp)|((e & He & Hrest) & Hp)].
           ++ split; [|assumption]. exists (fd, c). simpl. auto.
           ++ split; [|assumption]. exists e.
              split; [apply in_or_app; now left|assumption].
        -- intros ((e & He & Ht & Hke & Hop') & Hp).
           apply in_app_or in He. destruct He as [He|[<-|[]]].
           ++ right. split; [|assumption]. exists e. auto.
           ++ left. simpl in Hop'.
              assert (op' = op) as -> by congruence. auto.
      * destruct (Hinner _ _ Hin) as (Hndi & Hops). split; [assumption|].
        intros op'. rewrite Hops. split.
        -- intros ((e & He & Hrest) & Hp). split; [|assumption]. exists e.
           split; [apply in_or_app; now left|assumption].
        -- intros ((e & He & Ht & Hke & Hop') & Hp). split; [|assumption].
           apply in_app_or in He. destruct He as [He|[<-|[]]]; [eauto|].
           exfalso. apply Hne'. simpl in Hke. congruence.
    + intros k'. rewrite JsObjFacts.define_keys_In, Hkeys. split.
      * intros [->|(e & He & Hrest)].
        -- exists (fd, c). simpl. auto.
        -- exists e. split; [apply in_or_app; now left|assumption].
      * intros (e & He & Ht & Hke).
        apply in_app_or in He. destruct He as [He|[<-|[]]].
        -- right. eauto.
        -- left. simpl in Hke. congruence.
  - split; [assumption|split].
    + intros k' inner Hin. destruct (Hinner _ _ Hin) as (Hndi & Hops).
      split; [assumption|]. intros op'. rewrite Hops. split.
      * intros ((e & He & Hrest) & Hp). split; [|assumption]. exists e.
        split; [apply in_or_app; now left|assumption].
      * intros ((e & He & Ht & Hke & Hop') & Hp). split; [|assumption].
        apply in_app_or in He. destruct He as [He|[<-|[]]]; [eauto|].
        simpl in Ht. congruence.
    + intros k'. rewrite Hkeys. split.
      * intros (e & He & Hrest). exists e.
        split; [apply in_or_app; now left|assumption].
      * intros (e & He & Ht & Hke).
        apply in_app_or in He. destruct He as [He|[<-|[]]]; [eauto|].
        simpl in Ht. congruence.
Qed.

End MeasureFacts.

Section MeasureTheorems.
Context `{Env}.

Lemma measInv_scan (m : Model) (rest seen : list (FieldDef * Channel))
  (s : summary.State) :
  (forall e, In e rest -> truthyStr (fd_aggregate (fst e)) = true ->
             JsObj.inherited (measureKey (fst e)) = false) ->
  measInv seen (summary.meas s) ->
  measInv (seen ++ rest)
    (summary.meas (fold_left (fun s e => summary.visit m (fst e) (snd e) s) rest s)).
Proof.
  revert seen s. induction rest as [|e rest IH]; intros seen s Hown Hinv; simpl.
  - now rewrite app_nil_r.
  - replace (seen ++ e :: rest)%list with ((seen ++ [e]) ++ rest)%list
      by now rewrite <- app_assoc.
    apply IH; [intros; apply Hown; [now right|assumption]|].
    apply measInv_step; [apply Hown; now left|assumption].
Qed.

Lemma summarize_entries (meas : JsObj.t (JsObj.t bool)) :
  NoDup (map fst meas) -> ~ In "__proto__" (map fst meas) ->
  JsObj.reduce meas
    (fun (aggregator : JsObj.t (list string)) fnDictSet field =>
       JsObj.set field (JsObj.keys fnDictSet) aggregator)
    JsObj.empty
  = map (fun e => (fst e, JsObj.keys (snd e))) (JsObj.entries meas).
Proof.
  intros Hnd Hproto. unfold JsObj.reduce.
  rewrite (rebuild_entries (@JsObj.keys bool)); [reflexivity| |].
  - simpl. now apply JsObjFacts.keys_NoDup.
  - intros Hin. apply Hproto. now apply JsObjFacts.keys_In.
Qed.

(** X11.  When every measure key is a name that objects do not inherit, the
    [summarize] of the summary dataset has one key per measure key under
    which a present channel registers an aggregate: the wildcard for a
    count, whatever its field, and the field for any other operation.  Each
    key holds, without duplicates, exactly the operations registered under
    it other than [__proto__], so several counts collapse into one
    measure. *)
Theorem summary_def_measures (m : Model) (d : VgData) :
  measuresOwnKeys m ->
  summary.def m = Some d ->
  exists groupby summarize,
    vg_transform d = [Aggregate (Some groupby) (SummarizeMap summarize)] /\
    NoDup (JsObj.keys summarize) /\
    (forall k, In k (JsObj.keys summarize) <-> exists op, registers m k op) /\
    (forall k ops, JsObj.get k summarize = JsObj.Own ops ->
       NoDup ops /\
       forall op, In op ops <-> registers m k op /\ op <> "__proto__").
Proof.
  intros Hown. unfold summary.def. rewrite forEach_scan.
  pose proof (measInv_scan m (scan m) []
                {| summary.dims := JsObj.empty; summary.meas := JsObj.empty;
                   summary.hasAggregate := false |}) as Hinv.
  simpl in Hinv.
  set (s := fold_left (fun s e => summary.visit m (fst e) (snd e) s) (scan m) _) in *.
  destruct Hinv as (Hnd & Hinner & Hkeys).
  { intros [fd c] He Ht. now apply (Hown fd c). }
  { split; [constructor|split].
    - intros k inner [].
    - intros k. split; [intros []|]. intros (e & [] & _). }
  destruct (summary.hasAggregate s); [|discriminate].
  intros [= <-]. eexists _, _. split; [reflexivity|].
  assert (Hproto : ~ In "__proto__" (map fst (summary.meas s))).
  { intros Hin. apply Hkeys in Hin. destruct Hin as ([fd c] & He & Ht & Hk).
    simpl in Ht, Hk. pose proof (Hown fd c He Ht) as Hinh.
    rewrite Hk in Hinh. discriminate Hinh. }
  rewrite summarize_entries by assumption.
  set (summarize := map _ (JsObj.entries (summary.meas s))).
  assert (Hfst : map fst summarize = JsObj.keys (summary.meas s)).
  { unfold summarize, JsObj.keys. rewrite map_map. reflexivity. }
  assert (Hnds : NoDup (map fst summarize)).
  { rewrite Hfst. now apply JsObjFacts.keys_NoDup. }
  assert (Hreg : forall k op,
    (exists e, In e (scan m) /\ truthyStr (fd_aggregate (fst e)) = true /\
               measureKey (fst e) = k /\ fd_aggregate (fst e) = Some op)
    <-> registers m k op).
  { intros k op. unfold registers. split.
    - intros ([fd c] & He & Hrest). exists fd, c. auto.
    - intros (fd & c & He & Hrest). exists (fd, c). auto. }
  split; [|split].
  - now apply JsObjFacts.keys_NoDup.
  - intros k. rewrite JsObjFacts.keys_In, Hfst, JsObjFacts.keys_In, Hkeys.
    split.
    + intros (e & He & Ht & Hk).
      destruct (proj1 (truthyStr_Some _) Ht) as (op & Hop & _).
      exists op. apply Hreg. eauto.
    + intros (op & Hr). apply Hreg in Hr.
      destruct Hr as (e & He & Ht & Hk & _). eauto.
  - intros k ops Hget. apply get_Own, own_In in Hget.
    unfold summarize in Hget. apply in_map_iff in Hget.
    destruct Hget as ([k' inner] & [= <- <-] & Hin). simpl.
    apply (Permutation_in _ (JsObjFacts.entries_perm _)) in Hin.
    destruct (Hinner _ _ Hin) as (Hndi & Hops).
    split; [now apply JsObjFacts.keys_NoDup|].
    intros op. now rewrite JsObjFacts.keys_In, Hops, Hreg.
Qed.

End MeasureTheorems.

(** ** How the datasets fit together *)
Section CompositionFacts.
Context `{Env}.

Lemma summary_def_names (m : Model) :
  map vg_name (match summary.def m with Some s => [s] | None => [] end)
  = if anyAggregate m then [SUMMARY] else [].
Proof.
  unfold summary.def, anyAggregate. rewrite forEach_scan.
  destruct (summary_scan m (scan m)
              {| summary.dims := JsObj.empty; summary.meas := JsObj.empty;
                 summary.hasAggregate := false |}) as (Hagg & _).
  simpl in Hagg. rewrite Hagg. now destruct (existsb _ (scan m)).
Qed.

Lemma postProcess_names (m : Model) :
  map vg_name (postProcess m (built m)) = map vg_name (built m).
Proof.
  rewrite built_trailing, postProcess_snoc, !map_app. reflexivity.
Qed.

Lemma layout_def_name (m : Model) (d : VgData) :
  layout.def m = Some d -> vg_name d = LAYOUT.
Proof.
  unfold layout.def, bind, ret.
  destruct (layout.distinctSummary m); [|discriminate].
  destruct (layout.scaleWidthFormula m X _); [|discriminate].
  destruct (layout.scaleWidthFormula m Y _); [|discriminate].
  destruct (has m COLUMN || has m ROW).
  - destruct (layout.facetScaleWidthFormula m COLUMN _); [|discriminate].
    destruct (layout.facetScaleWidthFormula m ROW _); [|discriminate].
    destruct (0 <? _)%nat; now intros [= <-].
  - destruct (0 <? _)%nat; now intros [= <-].
Qed.

Lemma source_def_name (m : Model) : vg_name (source.def m) = SOURCE.
Proof.
  unfold source.def. destruct (hasValues m), (source.formatParse m); reflexivity.
Qed.

Lemma compileData_names (m : Model) (ds : list VgData) :
  compileData m = Some ds -> map vg_name ds = datasetNames m.
Proof.
  intros Hds. apply compileData_shape in Hds.
  destruct Hds as (layoutDef & Hl & ->).
  rewrite !map_app, postProcess_names. unfold built, datasetNames.
  cbn [map app]. rewrite source_def_name, summary_def_names, (layout_def_name _ _ Hl).
  now destruct (stack m).
Qed.

Lemma dates_defs_names_NoDup (m : Model) : NoDup (map vg_name (dates.defs m)).
Proof.
  unfold dates.defs. rewrite reduce_scan.
  destruct (dates_scan_inv (scan m) [] (JsObj.empty, []) datesInv_start)
    as (_ & Hnd & _ & _).
  exact Hnd.
Qed.

Lemma dates_defs_name_domain (m : Model) (name : string) :
  In name (map vg_name (dates.defs m)) ->
  exists c domain, rawDomain name c = Some domain.
Proof.
  unfold dates.defs. rewrite reduce_scan.
  destruct (dates_scan_inv (scan m) [] (JsObj.empty, []) datesInv_start)
    as (_ & _ & Hfirst & _).
  intros Hin. apply in_map_iff in Hin. destruct Hin as (d & <- & Hd).
  destruct (Hfirst d Hd) as (_ & e & _ & domain & _ & (_ & _ & Hraw) & _).
  eauto.
Qed.

End CompositionFacts.

Section CompositionTheorems.
Context `{Env}.

(** X12.  Every group-by name that the summary derives from a binned field,
    or from a temporal field with a time unit, is written by a transform of
    the source dataset: the start, mid and end names by the bin transform
    of the channel, the range name by its range formula, and the time-unit
    reference by its time-unit formula. *)
Theorem groupby_names_written (m : Model) (fd : FieldDef) (c : Channel)
  (name : string) :
  In (fd, c) (scan m) ->
  In name (dimensionNames m (fd, c)) ->
  truthyBin (fd_bin fd) = true \/
  (fd_type fd = Some TEMPORAL /\ truthyStr (fd_timeUnit fd) = true) ->
  exists t, In t (vg_transform (source.def m)) /\ writes t name.
Proof.
  intros Hin Hname Hkind. rewrite source_def_transform. unfold source.transform.
  unfold dimensionNames in Hname.
  destruct (truthyBin (fd_bin fd)) eqn:Hbin.
  - assert (Hseg : forall t, In t (binSegment m (fd, c)) ->
                             In t (source.binTransform m)).
    { intros t Ht. rewrite binTransform_flat_map. apply in_flat_map. eauto. }
    unfold binSegment in Hseg. rewrite Hbin in Hseg.
    apply in_app_or in Hname. destruct Hname as [Hname|Hname].
    + exists (source.binTrans fd c (fd_bin fd)). split.
      * rewrite !in_app_iff. do 3 right. left. apply Hseg. now left.
      * unfold source.binTrans. destruct (negb _ && negb _); simpl;
          simpl in Hname; intuition.
    + destruct (optStringIs _ "ordinal") eqn:Hord; [|destruct Hname].
      destruct Hname as [<-|[]]. exists (rangeFormula fd). split.
      * rewrite !in_app_iff. do 3 right. left. apply Hseg. right.
        simpl. now left.
      * reflexivity.
  - destruct Hkind as [Hb|(Hty & Htu)]; [discriminate|].
    destruct Hname as [<-|[]].
    exists (Formula (field fd noOpt)
              (EStr (parseExpression (propertyKey (fd_timeUnit fd))
                       (field fd optNofnDatum) false))).
    split; [|reflexivity].
    rewrite !in_app_iff. do 4 right.
    rewrite timeTransform_flat_map. apply in_flat_map. exists (fd, c).
    split; [assumption|]. unfold timeSegment. rewrite Hty, Htu. now left.
Qed.

(** X13.  The names of the datasets that [compileData] returns are, in
    order: the source; the summary when a present channel declares an
    aggregate; the layout; the stacked scale when the model stacks; then
    the time units of [dates.defs].  The source dataset always comes
    first. *)
Theorem compileData_dataset_names (m : Model) (ds : list VgData) :
  compileData m = Some ds ->
  map vg_name ds =
    ([SOURCE] ++ (if anyAggregate m then [SUMMARY] else []) ++ [LAYOUT] ++
     (match stack m with Some _ => [STACKED_SCALE] | None => [] end) ++
     map vg_name (dates.defs m))%list.
Proof. apply compileData_names. Qed.

(** X14.  When the four reserved names are distinct and none of them is a
    time unit with a raw domain, the datasets that [compileData] returns
    have pairwise distinct names. *)
Theorem compileData_names_distinct (m : Model) (ds : list VgData) :
  reservedNamesApart ->
  compileData m = Some ds ->
  NoDup (map vg_name ds).
Proof.
  intros (Hnd & Hraw) Hds. rewrite (compileData_names _ _ Hds).
  unfold datasetNames.
  set (reserved := ([SOURCE] ++ (if anyAggregate m then [SUMMARY] else []) ++
                    [LAYOUT] ++
                    match stack m with Some _ => [STACKED_SCALE] | None => [] end)%list).
  replace (_ ++ _)%list with (reserved ++ map vg_name (dates.defs m))%list.
  - apply NoDup_app.
    + unfold reserved.
      pose proof (NoDup_remove_1 [SOURCE] [LAYOUT; STACKED_SCALE] SUMMARY Hnd) as H1.
      pose proof (NoDup_remove_1 [SOURCE; SUMMARY; LAYOUT] [] STACKED_SCALE Hnd) as H2.
      pose proof (NoDup_remove_1 [SOURCE; LAYOUT] [] STACKED_SCALE H1) as H3.
      destruct (anyAggregate m), (stack m); simpl in *; assumption.
    + apply dates_defs_names_NoDup.
    + intros name Hres Hdate. apply dates_defs_name_domain in Hdate.
      destruct Hdate as (c & domain & Hdom).
      rewrite Hraw in Hdom; [discriminate|].
      unfold reserved in Hres.
      destruct (anyAggregate m), (stack m); simpl in *; intuition.
  - unfold reserved. now rewrite <- !app_assoc.
Qed.

End CompositionTheorems.

(** ** The further properties on the sample models *)
Section MoreExamples.
Import Sample.

Example formatParse_histogram :
  source.formatParse (H := env) histogram =
  Some [("Horsepower", "number"); ("Acceleration", "number")].
Proof. reflexivity. Qed.

Example timeTransform_ordinalMonth :
  source.timeTransform (H := env) ordinalMonth = [] /\
  map vg_name (dates.defs (H := env) ordinalMonth) = ["month"].
Proof. split; reflexivity. Qed.

(** Numbers print as [Number::toString] prints them. *)
Example numToString_samples :
  map numToString
    [200%float; 0.5%float; (1 / 10)%float; (1 / 10 + 2 / 10)%float;
     100000000000000000000%float; 1e21%float; (1 / 10000000)%float;
     (1 / 0)%float; (0 / 0)%float] =
  ["200"; "0.5"; "0.1"; "0.30000000000000004";
   "100000000000000000000"; "1e+21"; "1e-7"; "Infinity"; "NaN"].
Proof. reflexivity. Qed.

Example scaleWidthFormula_halfPadded :
  layout.scaleWidthFormula (H := env) halfPadded Y 150%float =
  Some (EStr "(datum.distinct_Origin + 0.5) * 21").
Proof. reflexivity. Qed.

(** A field named like a member of [Object.prototype] reads as calculated,
    and is left out of the parse map. *)
Example formatParse_inherited_name :
  source.formatParse (H := env)
    (mkModel (fun c => match c with
                       | X => Some (fd "toString" QUANTITATIVE)
                       | Y => Some (fd "Horsepower" QUANTITATIVE)
                       | _ => None
                       end)
       layoutScales (OtherMark "point") None) =
  Some [("Horsepower", "number")].
Proof. reflexivity. Qed.

Lemma reservedNamesApart_sample : reservedNamesApart (H := env).
Proof.
  split.
  - repeat constructor; simpl; intuition discriminate.
  - intros name c Hname. simpl in Hname.
    destruct Hname as [<-|[<-|[<-|[<-|[]]]]];
      destruct c; reflexivity.
Defined.

Lemma timeUnit_without_temporal_witness :
  In (withTimeUnit "month" (fd "date" ORDINAL), X) (scan (H := env) ordinalMonth) /\
  hasDomain (H := env) (withTimeUnit "month" (fd "date" ORDINAL), X) "month"
    (range 0 12) /\
  fd_type (withTimeUnit "month" (fd "date" ORDINAL)) <> Some TEMPORAL /\
  timeSegment (H := env) (withTimeUnit "month" (fd "date" ORDINAL), X) = [] /\
  In "month" (map vg_name (dates.defs (H := env) ordinalMonth)).
Proof.
  assert (Hin : In (withTimeUnit "month" (fd "date" ORDINAL), X)
                  (scan (H := env) ordinalMonth)) by (left; reflexivity).
  assert (Hdom : hasDomain (H := env) (withTimeUnit "month" (fd "date" ORDINAL), X)
                   "month" (range 0 12))
    by (split; [reflexivity|split; [discriminate|reflexivity]]).
  assert (Hty : fd_type (withTimeUnit "month" (fd "date" ORDINAL)) <> Some TEMPORAL)
    by discriminate.
  split; [exact Hin|]. split; [exact Hdom|]. split; [exact Hty|].
  exact (timeUnit_without_temporal (H := env) ordinalMonth _ "month"
           (range 0 12) Hin Hdom Hty).
Defined.

Lemma layout_def_requests_witness :
  exists d,
    layout.def (H := env) bars = Some d /\
    vg_name d = "layout" /\ vg_format d = None /\ vg_url d = None.
Proof.
  eexists. split; [reflexivity|].
  destruct (layout_def_requests (H := env) bars _ eq_refl)
    as (Hname & Hformat & Hurl & _).
  auto.
Defined.

Lemma layout_def_unbound_witness :
  (forall c, In c [X; Y; ROW; COLUMN] -> has emptyText c = false) /\
  layout.def (H := env) emptyText =
  Some {| vg_name := "layout"; vg_source := None;
          vg_values := Some (JArr [JObj []]); vg_format := None;
          vg_url := None;
          vg_transform :=
            [Formula "cellWidth" (ENum 90%float);
             Formula "cellHeight" (ENum 21%float);
             Formula "width" (ENum 90%float);
             Formula "height" (ENum 90%float)] |}.
Proof.
  assert (Hno : forall c, In c [X; Y; ROW; COLUMN] -> has emptyText c = false)
    by (intros c [<-|[<-|[<-|[<-|[]]]]]; reflexivity).
  split; [exact Hno|].
  exact (layout_def_unbound (H := env) emptyText Hno).
Defined.

Lemma scaleWidthFormula_cases_witness :
  In Y [X; Y; ROW; COLUMN] /\
  layout.scaleWidthFormula (H := env) bars Y 150%float =
    Some (EStr "(datum.distinct_Origin + 1) * 21") /\
  exists s card,
    scale bars Y = Some s /\ has bars Y = true /\
    @isOrdinalScale env bars Y = true /\
    "(datum.distinct_Origin + 1) * 21" =
      "(" ++ card ++ " + " ++ optNumToString (sc_padding s) ++
      ") * " ++ optNumToString (sc_bandWidth s).
Proof.
  assert (Hin : In Y [X; Y; ROW; COLUMN]) by (simpl; auto).
  split; [exact Hin|]. split; [reflexivity|].
  destruct (scaleWidthFormula_cases (H := env) bars Y 150%float _ Hin eq_refl)
    as (s & card & Hs & Hhas & Hord & Hf & _).
  exists s, card. auto.
Defined.

Lemma facetScaleWidthFormula_cases_witness :
  layout.facetScaleWidthFormula (H := env) bars ROW "datum.cellHeight" =
    Some "datum.cellHeight + 16" /\
  exists s, scale bars ROW = Some s.
Proof.
  split; [reflexivity|].
  destruct (facetScaleWidthFormula_cases (H := env) bars ROW "datum.cellHeight"
              _ eq_refl) as (s & Hs & _).
  exists s. exact Hs.
Defined.

Lemma summary_def_measures_witness :
  measuresOwnKeys (H := env) histogram /\
  exists d,
    summary.def (H := env) histogram = Some d /\
    exists groupby summarize,
      vg_transform d = [Aggregate (Some groupby) (SummarizeMap summarize)] /\
      NoDup (JsObj.keys summarize).
Proof.
  assert (Hown : measuresOwnKeys (H := env) histogram).
  { intros f c [He|[He|[He|[]]]]; injection He as <- <-; intros _; reflexivity. }
  split; [exact Hown|].
  eexists. split; [reflexivity|].
  destruct (summary_def_measures (H := env) histogram _ Hown eq_refl)
    as (groupby & summarize & Ht & Hnd & _).
  exists groupby, summarize. auto.
Defined.

Lemma groupby_names_written_witness :
  In (withBin (BinBool true) (fd "Horsepower" QUANTITATIVE), X)
    (scan (H := env) histogram) /\
  In "bin_Horsepower_start"
    (dimensionNames (H := env) histogram
       (withBin (BinBool true) (fd "Horsepower" QUANTITATIVE), X)) /\
  truthyBin (fd_bin (withBin (BinBool true) (fd "Horsepower" QUANTITATIVE))) = true /\
  exists t,
    In t (vg_transform (source.def (H := env) histogram)) /\
    writes t "bin_Horsepower_start".
Proof.
  assert (Hin : In (withBin (BinBool true) (fd "Horsepower" QUANTITATIVE), X)
                  (scan (H := env) histogram)) by (left; reflexivity).
  assert (Hname : In "bin_Horsepower_start"
                    (dimensionNames (H := env) histogram
                       (withBin (BinBool true) (fd "Horsepower" QUANTITATIVE), X)))
    by (left; reflexivity).
  split; [exact Hin|]. split; [exact Hname|]. split; [reflexivity|].
  exact (groupby_names_written (H := env) histogram _ X "bin_Horsepower_start"
           Hin Hname (or_introl eq_refl)).
Defined.

Lemma compileData_dataset_names_witness :
  exists ds,
    compileData (H := env) histogram = Some ds /\
    map vg_name ds = ["source"; "summary"; "layout"].
Proof.
  eexists. split; [reflexivity|].
  exact (compileData_dataset_names (H := env) histogram _ eq_refl).
Defined.

Lemma compileData_names_distinct_witness :
  exists ds,
    reservedNamesApart (H := env) /\
    compileData (H := env) months = Some ds /\
    NoDup (map vg_name ds).
Proof.
  eexists. split; [exact reservedNamesApart_sample|].
  split; [reflexivity|].
  exact (compileData_names_distinct (H := env) months _
           reservedNamesApart_sample eq_refl).
Defined.

End MoreExamples.
